(** * Gaze-up: head-pointer pipeline and blink/dwell gesture layer

    A shallow embedding of
      - [src/services/visionService.ts]   (class [VisionService], the per-frame
        callback [predictWebcam]),
      - [src/components/CalibrationScreen.tsx]   ([computeCalibration]),
      - the [App] component ([processVisionResult] and the double-blink
        timeout callback),
    followed by the properties of the pipeline.

    Numbers.  A JavaScript [number] is modelled as a real number or one of
    the three special values of IEEE 754 ([Infinity], [-Infinity], [NaN]).
    Finite arithmetic is exact (rounding and overflow are not modelled) and
    the sign of zero is not tracked: a zero divisor behaves as [+0].  The
    special values follow the IEEE rules the code relies on: [x/0], [0/0],
    comparisons with [NaN], [Math.min]/[Math.max] with [NaN]. *)

From Stdlib Require Import Reals Lra List Bool ZArith Lia.
Import ListNotations.

Open Scope R_scope.

(* ================================================================== *)
(** ** JavaScript numbers *)
(* ================================================================== *)

Module JS.

Inductive number : Type :=
| Fin (r : R)
| PInf
| NInf
| NaN.

Definition Rltb (a b : R) : bool := if Rlt_dec a b then true else false.
Definition Rleb (a b : R) : bool := if Rle_dec a b then true else false.
Definition Reqb (a b : R) : bool := if Req_dec_T a b then true else false.

Definition isNaN (a : number) : bool :=
  match a with NaN => true | _ => false end.

Definition isFinite (a : number) : bool :=
  match a with Fin _ => true | _ => false end.

Definition neg (a : number) : number :=
  match a with
  | Fin r => Fin (- r)
  | PInf => NInf
  | NInf => PInf
  | NaN => NaN
  end.

Definition add (a b : number) : number :=
  match a, b with
  | NaN, _ | _, NaN => NaN
  | Fin r, Fin s => Fin (r + s)
  | PInf, NInf | NInf, PInf => NaN
  | PInf, _ | _, PInf => PInf
  | NInf, _ | _, NInf => NInf
  end.

Definition sub (a b : number) : number := add a (neg b).

(** The infinity of the sign of [r] when [pos], of the opposite sign
    otherwise; [NaN] when [r] is zero ([0 * Infinity], [0 / 0]). *)
Definition signedInf (r : R) (pos : bool) : number :=
  if Reqb r 0 then NaN
  else if Bool.eqb (Rltb 0 r) pos then PInf else NInf.

Definition mul (a b : number) : number :=
  match a, b with
  | NaN, _ | _, NaN => NaN
  | Fin r, Fin s => Fin (r * s)
  | Fin r, PInf | PInf, Fin r => signedInf r true
  | Fin r, NInf | NInf, Fin r => signedInf r false
  | PInf, PInf | NInf, NInf => PInf
  | PInf, NInf | NInf, PInf => NInf
  end.

Definition div (a b : number) : number :=
  match a, b with
  | NaN, _ | _, NaN => NaN
  | Fin r, Fin s =>
      if Reqb s 0 then signedInf r true   (* r/0: NaN, Infinity, -Infinity *)
      else Fin (r / s)
  | Fin _, _ => Fin 0
  | PInf, Fin s => if Rltb s 0 then NInf else PInf
  | NInf, Fin s => if Rltb s 0 then PInf else NInf
  | _, _ => NaN
  end.

(** Relational operators: every comparison with [NaN] is false. *)
Definition ltb (a b : number) : bool :=
  match a, b with
  | NaN, _ | _, NaN => false
  | Fin r, Fin s => Rltb r s
  | Fin _, PInf => true
  | Fin _, NInf => false
  | PInf, _ => false
  | NInf, NInf => false
  | NInf, _ => true
  end.

Definition leb (a b : number) : bool :=
  match a, b with
  | NaN, _ | _, NaN => false
  | Fin r, Fin s => Rleb r s
  | Fin _, PInf => true
  | Fin _, NInf => false
  | PInf, PInf => true
  | PInf, _ => false
  | NInf, _ => true
  end.

Definition gtb (a b : number) : bool := ltb b a.
Definition geb (a b : number) : bool := leb b a.

(** Strict equality [===] on numbers. *)
Definition eqb (a b : number) : bool :=
  match a, b with
  | Fin r, Fin s => Reqb r s
  | PInf, PInf | NInf, NInf => true
  | _, _ => false
  end.

(** [Math.min], [Math.max]: [NaN] as soon as one argument is. *)
Definition min (a b : number) : number :=
  if isNaN a || isNaN b then NaN else if ltb b a then b else a.

Definition max (a b : number) : number :=
  if isNaN a || isNaN b then NaN else if ltb a b then b else a.

Definition abs (a : number) : number :=
  match a with
  | Fin r => Fin (Rabs r)
  | PInf | NInf => PInf
  | NaN => NaN
  end.

Definition sqrt (a : number) : number :=
  match a with
  | Fin r => if Rltb r 0 then NaN else Fin (R_sqrt.sqrt r)
  | PInf => PInf
  | NInf | NaN => NaN
  end.

(** [Math.pow(a, 2)]. *)
Definition pow2 (a : number) : number := mul a a.

End JS.

Import JS.

Declare Scope js_scope.
Delimit Scope js_scope with js.
Bind Scope js_scope with number.
Notation "a + b" := (JS.add a b) : js_scope.
Notation "a - b" := (JS.sub a b) : js_scope.
Notation "a * b" := (JS.mul a b) : js_scope.
Notation "a / b" := (JS.div a b) : js_scope.
Notation "a <? b" := (JS.ltb a b) (at level 70) : js_scope.
Notation "a <=? b" := (JS.leb a b) (at level 70) : js_scope.
Notation "a >? b" := (JS.gtb a b) (at level 70) : js_scope.
Notation "a >=? b" := (JS.geb a b) (at level 70) : js_scope.
Notation "a === b" := (JS.eqb a b) (at level 70) : js_scope.
Notation "# r" := (Fin r%R) (at level 5, r at level 1, format "# r") : js_scope.

(* ================================================================== *)
(** ** [types.ts] *)
(* ================================================================== *)

Record Point : Type := mkPoint { x : number; y : number }.

(** One axis of a [CalibrationConfig]: raw value [start] maps to screen 0,
    raw value [end] to screen 1. *)
Record Axis : Type := mkAxis { start : number; end_ : number }.

Record CalibrationConfig : Type := mkCalibration { cal_x : Axis; cal_y : Axis }.

Inductive AppStatus : Type :=
| IDLE | LOADING_MODEL | CALIBRATING | ACTIVE | ERROR.

Record VisionEvent : Type := mkVisionEvent {
  ev_cursor : Point;
  ev_rawHead : Point;
  ev_isBlinking : bool;
  ev_ear : number;
  ev_didBlink : bool;
  ev_dwellProgress : number;
  ev_didDwell : bool
}.

(* ================================================================== *)
(** ** [services/visionService.ts] *)
(* ================================================================== *)

Open Scope js_scope.

Definition BLINK_THRESHOLD : number := #0.45.
Definition BLINK_MIN_DURATION : number := #100.
Definition BLINK_MAX_DURATION : number := #300.

Definition JITTER_THRESHOLD : number := #0.002.
Definition IDLE_SMOOTHING : number := #0.02.
Definition ACTIVE_SMOOTHING : number := #0.1.
Definition MAX_SMOOTHING : number := #0.5.

Definition DWELL_RADIUS : number := #0.04.
Definition DWELL_DURATION : number := #600.

(** The mutable fields of [class VisionService]. *)
Record VisionService : Type := mkVisionService {
  cursorX : number;
  cursorY : number;
  blinkStartTime : number;
  dwellAnchor : Point;
  dwellStartTime : number;
  hasTriggeredDwell : bool;
  calibration : option CalibrationConfig
}.

(** Field initialisers of the class; [calibration] is what [loadCalibration]
    found in local storage. *)
Definition newVisionService (stored : option CalibrationConfig) : VisionService :=
  {| cursorX := #0.5;
     cursorY := #0.5;
     blinkStartTime := #(-1);
     dwellAnchor := mkPoint #0.5 #0.5;
     dwellStartTime := #(-1);
     hasTriggeredDwell := false;
     calibration := stored |}.

Definition setCalibration (vs : VisionService) (config : CalibrationConfig)
  : VisionService :=
  {| cursorX := cursorX vs;
     cursorY := cursorY vs;
     blinkStartTime := blinkStartTime vs;
     dwellAnchor := dwellAnchor vs;
     dwellStartTime := dwellStartTime vs;
     hasTriggeredDwell := hasTriggeredDwell vs;
     calibration := Some config |}.

(** [Math.max(0, Math.min(1, v))]. *)
Definition clamp01 (v : number) : number := JS.max #0 (JS.min #1 v).

(** Step 2 of [predictWebcam]: map the raw nose position to screen
    coordinates, then clamp to the screen. *)
Definition mapToScreen (cal : option CalibrationConfig) (noseX noseY : number)
  : number * number :=
  let '(targetX, targetY) :=
    match cal with
    | Some c =>
        ((noseX - start (cal_x c)) / (end_ (cal_x c) - start (cal_x c)),
         (noseY - start (cal_y c)) / (end_ (cal_y c) - start (cal_y c)))
    | None =>
        let amplifiedX := #0.5 + (noseX - #0.5) * #2.5 in
        let amplifiedY := #0.5 + (noseY - #0.5) * #2.5 in
        (#1 - JS.max #0 (JS.min #1 amplifiedX),
         JS.max #0 (JS.min #1 amplifiedY))
    end in
  (clamp01 targetX, clamp01 targetY).

(** Step 3: the smoothing factor chosen for a jump of length [distance]. *)
Definition smoothingAlpha (distance : number) : number :=
  if distance <? JITTER_THRESHOLD then IDLE_SMOOTHING
  else JS.min (ACTIVE_SMOOTHING + distance * #5) MAX_SMOOTHING.

(** Step 3: adaptive smoothing of the cursor towards the target. *)
Definition smoothCursor (cx cy targetX targetY : number) : number * number :=
  let dx := targetX - cx in
  let dy := targetY - cy in
  let distance := JS.sqrt (dx * dx + dy * dy) in
  let alpha := smoothingAlpha distance in
  (cx + dx * alpha, cy + dy * alpha).

Definition dist (p1 p2 : Point) : number :=
  JS.sqrt (JS.pow2 (x p1 - x p2) + JS.pow2 (y p1 - y p2)).

(** [landmarks] is the model's landmark array, read at the six indices of
    one eye. *)
Definition calculateEAR (landmarks : nat -> Point) (indices : list nat) : number :=
  let at_ (i : nat) := landmarks (nth i indices O) in
  let v1 := dist (at_ 1%nat) (at_ 5%nat) in
  let v2 := dist (at_ 2%nat) (at_ 4%nat) in
  let h := dist (at_ 0%nat) (at_ 3%nat) in
  (v1 + v2) / (#2 * h).

(** Step 4, the blink state machine: [now] is the reading of
    [performance.now()] taken in the branch that runs.  Returns the new
    [blinkStartTime] and [didBlink]. *)
Definition blinkStep (startTime : number) (isBlinking : bool) (now : number)
  : number * bool :=
  if isBlinking then
    if startTime === #(-1) then (now, false) else (startTime, false)
  else
    if negb (startTime === #(-1)) then
      let duration := now - startTime in
      let didBlink :=
        (duration >=? BLINK_MIN_DURATION) && (duration <=? BLINK_MAX_DURATION) in
      (#(-1), didBlink)
    else (startTime, false).

(** The dwell fields of the service. *)
Record DwellState : Type := mkDwell {
  d_anchor : Point;
  d_startTime : number;
  d_triggered : bool
}.

(** Step 5: the distance of the cursor from the dwell anchor. *)
Definition dwellDist (anchor : Point) (cx cy : number) : number :=
  JS.sqrt (JS.pow2 (cx - x anchor) + JS.pow2 (cy - y anchor)).

(** Step 5, dwell detection on the smoothed cursor.  Returns the new dwell
    fields, [dwellProgress] and [didDwell]. *)
Definition dwellStep (d : DwellState) (cx cy : number) (now : number)
  : DwellState * number * bool :=
  if dwellDist (d_anchor d) cx cy >? DWELL_RADIUS then
    (mkDwell (mkPoint cx cy) now false, #0, false)
  else if negb (d_triggered d) then
    let elapsed := now - d_startTime d in
    let dwellProgress := JS.min #1 (elapsed / DWELL_DURATION) in
    if elapsed >=? DWELL_DURATION then
      (mkDwell (d_anchor d) (d_startTime d) true, #0, true)
    else (d, dwellProgress, false)
  else (d, #0, false).

(** What one run of [predictWebcam] reads from outside: the landmarks of the
    first face, if any, and the clock readings of the blink and the dwell
    steps. *)
Record Frame : Type := mkFrame {
  faceLandmarks : option (nat -> Point);
  nowBlink : number;
  nowDwell : number
}.

Definition LEFT_EYE : list nat := [33; 160; 158; 133; 153; 144]%nat.
Definition RIGHT_EYE : list nat := [362; 385; 387; 263; 373; 380]%nat.

(** One run of the per-frame callback: the new service state and the event
    passed to [onResult], if the frame had a face. *)
Definition predictWebcam (vs : VisionService) (fr : Frame)
  : VisionService * option VisionEvent :=
  match faceLandmarks fr with
  | None => (vs, None)
  | Some landmarks =>
      let noseX := x (landmarks 1%nat) in
      let noseY := y (landmarks 1%nat) in
      let '(targetX, targetY) := mapToScreen (calibration vs) noseX noseY in
      let '(cx, cy) := smoothCursor (cursorX vs) (cursorY vs) targetX targetY in
      let leftEAR := calculateEAR landmarks LEFT_EYE in
      let rightEAR := calculateEAR landmarks RIGHT_EYE in
      let avgEAR := (leftEAR + rightEAR) / #2 in
      let isBlinking := avgEAR <? BLINK_THRESHOLD in
      let '(bst, didBlink) := blinkStep (blinkStartTime vs) isBlinking (nowBlink fr) in
      let '(d, dwellProgress, didDwell) :=
        dwellStep (mkDwell (dwellAnchor vs) (dwellStartTime vs) (hasTriggeredDwell vs))
                  cx cy (nowDwell fr) in
      ({| cursorX := cx;
          cursorY := cy;
          blinkStartTime := bst;
          dwellAnchor := d_anchor d;
          dwellStartTime := d_startTime d;
          hasTriggeredDwell := d_triggered d;
          calibration := calibration vs |},
       Some {| ev_cursor := mkPoint cx cy;
               ev_rawHead := mkPoint noseX noseY;
               ev_isBlinking := isBlinking;
               ev_ear := avgEAR;
               ev_didBlink := didBlink;
               ev_dwellProgress := dwellProgress;
               ev_didDwell := didDwell |})
  end.

Close Scope js_scope.

(* ================================================================== *)
(** ** [components/CalibrationScreen.tsx] *)
(* ================================================================== *)

Open Scope js_scope.

(** The four screen targets, in the order they are shown: TL, TR, BR, BL. *)
Definition POINTS : list Point :=
  [ mkPoint #0.1 #0.1; mkPoint #0.9 #0.1; mkPoint #0.9 #0.9; mkPoint #0.1 #0.9 ].

(** [computeCalibration]: from the four averaged measurements to the
    configuration handed to [onComplete].  Reading a missing array element
    raises a [TypeError]: [None]. *)
Definition computeCalibration (points : list Point) : option CalibrationConfig :=
  match points with
  | pTL :: pTR :: pBR :: pBL :: _ =>
      let rawXLeft := (x pTL + x pBL) / #2 in
      let rawXRight := (x pTR + x pBR) / #2 in
      let rawYTop := (y pTL + y pTR) / #2 in
      let rawYBottom := (y pBL + y pBR) / #2 in
      let rangeX := rawXRight - rawXLeft in
      let startX := rawXLeft - (rangeX / #0.8) * #0.1 in
      let endX := rawXRight + (rangeX / #0.8) * #0.1 in
      let rangeY := rawYBottom - rawYTop in
      let startY := rawYTop - (rangeY / #0.8) * #0.1 in
      let endY := rawYBottom + (rangeY / #0.8) * #0.1 in
      Some {| cal_x := mkAxis startX endX; cal_y := mkAxis startY endY |}
  | _ => None
  end.

(* ================================================================== *)
(** ** The [App] component *)
(* ================================================================== *)

Definition DOUBLE_BLINK_WINDOW : Z := 600%Z.

(** The ids of the [apps] table; they are the only values [hit] takes. *)
Inductive AppId : Type := mail | weather | assistant | system.

(** What the callbacks ask of React and of the content service. *)
Inductive Effect : Type :=
| SetActiveApp (a : option AppId)
| LoadAppContent (a : AppId).

(** The state and the refs of [App] that the vision callback reads or
    writes.  [activeAppRef] and [statusRef] are copies of [activeApp] and
    [status] refreshed by an effect after each render ([syncRefs]);
    [doubleBlinkTimer] is the deadline of the pending timeout, if one is
    pending. *)
Record App : Type := mkApp {
  status : AppStatus;
  cursor : Point;
  rawHead : option Point;
  isBlinking : bool;
  gestureProgress : number;
  activeApp : option AppId;
  hoveredAppId : option AppId;
  activeAppRef : option AppId;
  statusRef : AppStatus;
  firstBlinkHitRef : option AppId;
  blinkCount : nat;
  doubleBlinkTimer : option Z
}.

Definition initialApp : App :=
  {| status := LOADING_MODEL;
     cursor := mkPoint #0.5 #0.5;
     rawHead := None;
     isBlinking := false;
     gestureProgress := #0;
     activeApp := None;
     hoveredAppId := None;
     activeAppRef := None;
     statusRef := LOADING_MODEL;
     firstBlinkHitRef := None;
     blinkCount := 0%nat;
     doubleBlinkTimer := None |}.

Definition AppStatus_eqb (a b : AppStatus) : bool :=
  match a, b with
  | IDLE, IDLE | LOADING_MODEL, LOADING_MODEL | CALIBRATING, CALIBRATING
  | ACTIVE, ACTIVE | ERROR, ERROR => true
  | _, _ => false
  end.

(** Truthiness of a [string | null] holding an app id. *)
Definition truthy (a : option AppId) : bool :=
  match a with Some _ => true | None => false end.

(** The two [useEffect]s that copy state into the refs. *)
Definition syncRefs (s : App) : App :=
  {| status := status s; cursor := cursor s; rawHead := rawHead s;
     isBlinking := isBlinking s; gestureProgress := gestureProgress s;
     activeApp := activeApp s; hoveredAppId := hoveredAppId s;
     activeAppRef := activeApp s;
     statusRef := status s;
     firstBlinkHitRef := firstBlinkHitRef s; blinkCount := blinkCount s;
     doubleBlinkTimer := doubleBlinkTimer s |}.

Definition setStatus (s : App) (st : AppStatus) : App :=
  {| status := st; cursor := cursor s; rawHead := rawHead s;
     isBlinking := isBlinking s; gestureProgress := gestureProgress s;
     activeApp := activeApp s; hoveredAppId := hoveredAppId s;
     activeAppRef := activeAppRef s; statusRef := statusRef s;
     firstBlinkHitRef := firstBlinkHitRef s; blinkCount := blinkCount s;
     doubleBlinkTimer := doubleBlinkTimer s |}.

Definition setActiveApp (s : App) (a : option AppId) : App :=
  {| status := status s; cursor := cursor s; rawHead := rawHead s;
     isBlinking := isBlinking s; gestureProgress := gestureProgress s;
     activeApp := a; hoveredAppId := hoveredAppId s;
     activeAppRef := activeAppRef s; statusRef := statusRef s;
     firstBlinkHitRef := firstBlinkHitRef s; blinkCount := blinkCount s;
     doubleBlinkTimer := doubleBlinkTimer s |}.

(** Step 1 of [processVisionResult]: the hit boxes of the four icons, tested
    in order, a later match overriding an earlier one. *)
Definition hitTest (st : AppStatus) (active : option AppId) (c : Point)
  : option AppId :=
  if AppStatus_eqb st ACTIVE && negb (truthy active) then
    let centerX := #0.5 in
    let centerY := #0.5 in
    let hit0 : option AppId := None in
    let hit1 :=
      if (JS.abs (x c - (centerX - #0.1)) <? #0.08)
         && (JS.abs (y c - centerY) <? #0.1) then Some mail else hit0 in
    let hit2 :=
      if (JS.abs (x c - (centerX + #0.1)) <? #0.08)
         && (JS.abs (y c - centerY) <? #0.1) then Some weather else hit1 in
    let hit3 :=
      if (JS.abs (x c - (centerX - #0.1)) <? #0.08)
         && (JS.abs (y c - (centerY + #0.2)) <? #0.1) then Some assistant else hit2 in
    let hit4 :=
      if (JS.abs (x c - (centerX + #0.1)) <? #0.08)
         && (JS.abs (y c - (centerY + #0.2)) <? #0.1) then Some system else hit3 in
    hit4
  else None.

(** Step 2 of [processVisionResult]: the dwell gesture. *)
Definition dwellGesture (s : App) (hit : option AppId) (didDwell : bool)
  : App * list Effect :=
  if didDwell && negb (AppStatus_eqb (statusRef s) CALIBRATING) then
    match activeAppRef s, hit with
    | None, Some h => (setActiveApp s (Some h), [SetActiveApp (Some h); LoadAppContent h])
    | _, _ => (s, [])
    end
  else (s, []).

(** Step 3 of [processVisionResult]: a completed blink counts, the first of
    a sequence captures [hit], and the timeout is (re)armed [now +
    DOUBLE_BLINK_WINDOW]. *)
Definition blinkGesture (s : App) (now : Z) (hit : option AppId) (didBlink : bool)
  : App :=
  if didBlink && negb (AppStatus_eqb (statusRef s) CALIBRATING) then
    let count := S (blinkCount s) in
    {| status := status s; cursor := cursor s; rawHead := rawHead s;
       isBlinking := isBlinking s; gestureProgress := gestureProgress s;
       activeApp := activeApp s; hoveredAppId := hoveredAppId s;
       activeAppRef := activeAppRef s; statusRef := statusRef s;
       firstBlinkHitRef := if Nat.eqb count 1 then hit else firstBlinkHitRef s;
       blinkCount := count;
       doubleBlinkTimer := Some (now + DOUBLE_BLINK_WINDOW)%Z |}
  else s.

(** The callback given to the vision service, run at time [now] on the
    event of one frame. *)
Definition processVisionResult (s : App) (now : Z) (ev : VisionEvent)
  : App * list Effect :=
  let hit := hitTest (statusRef s) (activeAppRef s) (ev_cursor ev) in
  let s1 :=
    {| status := status s;
       cursor := ev_cursor ev;
       rawHead := Some (ev_rawHead ev);
       isBlinking := ev_isBlinking ev;
       gestureProgress := ev_dwellProgress ev;
       activeApp := activeApp s;
       hoveredAppId := hit;
       activeAppRef := activeAppRef s; statusRef := statusRef s;
       firstBlinkHitRef := firstBlinkHitRef s; blinkCount := blinkCount s;
       doubleBlinkTimer := doubleBlinkTimer s |} in
  let '(s2, effs) := dwellGesture s1 hit (ev_didDwell ev) in
  (blinkGesture s2 now hit (ev_didBlink ev), effs).

(** The function passed to [setTimeout]: the end of a blink sequence. *)
Definition doubleBlinkTimeout (s : App) : App * list Effect :=
  let count := blinkCount s in
  let s0 :=
    {| status := status s; cursor := cursor s; rawHead := rawHead s;
       isBlinking := isBlinking s; gestureProgress := gestureProgress s;
       activeApp := activeApp s; hoveredAppId := hoveredAppId s;
       activeAppRef := activeAppRef s; statusRef := statusRef s;
       firstBlinkHitRef := firstBlinkHitRef s;
       blinkCount := 0%nat;
       doubleBlinkTimer := None |} in
  if Nat.eqb count 2 then
    if truthy (activeAppRef s0) then (setActiveApp s0 None, [SetActiveApp None])
    else (s0, [])
  else if Nat.eqb count 1 then
    match activeAppRef s0, firstBlinkHitRef s0 with
    | None, Some h => (setActiveApp s0 (Some h), [SetActiveApp (Some h); LoadAppContent h])
    | _, _ => (s0, [])
    end
  else (s0, []).

(** What happens to the component between two renders. *)
Inductive Event : Type :=
| VisionResult (now : Z) (ev : VisionEvent)
| TimerFired (now : Z)
| Rendered.

(** The event loop: a timeout runs only when it is pending and due. *)
Definition step (s : App) (e : Event) : App * list Effect :=
  match e with
  | VisionResult now ev => processVisionResult s now ev
  | TimerFired now =>
      match doubleBlinkTimer s with
      | Some deadline => if (deadline <=? now)%Z then doubleBlinkTimeout s else (s, [])
      | None => (s, [])
      end
  | Rendered => (syncRefs s, [])
  end.

Fixpoint run (s : App) (es : list Event) : App * list Effect :=
  match es with
  | [] => (s, [])
  | e :: es' =>
      let '(s1, effs1) := step s e in
      let '(s2, effs2) := run s1 es' in
      (s2, effs1 ++ effs2)
  end.

Close Scope js_scope.

(* ================================================================== *)
(** ** Vocabulary of the statements *)
(* ================================================================== *)

(** A number that is a screen coordinate: finite and within [0,1]. *)
Definition onScreen (n : number) : Prop :=
  exists r, n = Fin r /\ 0 <= r <= 1.

(** An axis of zero width: [end] equal to [start]. *)
Definition zeroWidth (a : Axis) : Prop :=
  exists s, start a = Fin s /\ end_ a = Fin s.

(** The calibrated formula of one axis, before the clamp. *)
Definition calibratedRatio (a : Axis) (raw : number) : number :=
  ((raw - start a) / (end_ a - start a))%js.

(** The profile [computeCalibration] returns when the head did not move
    during calibration: every measurement is (0.5, 0.5). *)
Definition stillMeasurements : list Point :=
  let p := mkPoint (Fin 0.5) (Fin 0.5) in [p; p; p; p].

Definition stillProfile : CalibrationConfig :=
  {| cal_x := mkAxis (Fin 0.5) (Fin 0.5); cal_y := mkAxis (Fin 0.5) (Fin 0.5) |}.

(** The Euclidean length of a displacement, and the gain of the filter as
    the specification words it: idle below the jitter threshold, otherwise
    the active gain grown with the distance and capped. *)
Definition euclid (dx dy : R) : R := R_sqrt.sqrt (dx * dx + dy * dy).

Definition gain (d : R) : R :=
  if Rlt_dec d 0.002 then 0.02 else Rmin (0.1 + 5 * d) 0.5.

(** A face with open eyes (eye aspect ratio 0.6) and the nose at [nose]:
    the landmarks the code reads, every other index at the nose. *)
Definition openFace (nose : Point) : nat -> Point :=
  fun i =>
    if Nat.eqb i 33 then mkPoint (Fin 0.30) (Fin 0.40)
    else if Nat.eqb i 133 then mkPoint (Fin 0.40) (Fin 0.40)
    else if Nat.eqb i 160 then mkPoint (Fin 0.33) (Fin 0.37)
    else if Nat.eqb i 144 then mkPoint (Fin 0.33) (Fin 0.43)
    else if Nat.eqb i 158 then mkPoint (Fin 0.37) (Fin 0.37)
    else if Nat.eqb i 153 then mkPoint (Fin 0.37) (Fin 0.43)
    else if Nat.eqb i 362 then mkPoint (Fin 0.60) (Fin 0.40)
    else if Nat.eqb i 263 then mkPoint (Fin 0.70) (Fin 0.40)
    else if Nat.eqb i 385 then mkPoint (Fin 0.63) (Fin 0.37)
    else if Nat.eqb i 380 then mkPoint (Fin 0.63) (Fin 0.43)
    else if Nat.eqb i 387 then mkPoint (Fin 0.67) (Fin 0.37)
    else if Nat.eqb i 373 then mkPoint (Fin 0.67) (Fin 0.43)
    else nose.

(** The first frame seen by a service created with [stillProfile], the
    nose where it was during calibration. *)
Definition stillFrame : Frame :=
  mkFrame (Some (openFace (mkPoint (Fin 0.5) (Fin 0.5)))) (Fin 0) (Fin 0).

(** The profiles for which the mapper is safe: none, or finite bounds
    with [end] different from [start] on both axes. *)
Inductive usable : option CalibrationConfig -> Prop :=
| usable_none : usable None
| usable_some (c : CalibrationConfig) (sx ex sy ey : R) :
    start (cal_x c) = Fin sx -> end_ (cal_x c) = Fin ex -> ex <> sx ->
    start (cal_y c) = Fin sy -> end_ (cal_y c) = Fin ey -> ey <> sy ->
    usable (Some c).

(** What the dwell step reads at one frame: the smoothed cursor and the
    clock. *)
Record CursorSample : Type := mkSample {
  s_x : number;
  s_y : number;
  s_now : number
}.

(** The dwell step over consecutive frames: the final dwell fields and, per
    frame, [dwellProgress] and [didDwell]. *)
Fixpoint dwellRun (d : DwellState) (fs : list CursorSample)
  : DwellState * list (number * bool) :=
  match fs with
  | [] => (d, [])
  | f :: fs' =>
      let '(d1, progress, didDwell) := dwellStep d (s_x f) (s_y f) (s_now f) in
      let '(d2, outs) := dwellRun d1 fs' in
      (d2, (progress, didDwell) :: outs)
  end.

(** The cursor of the sample is within the dwell radius of the anchor (the
    test [dwellDist > DWELL_RADIUS] of the code fails). *)
Definition inRadius (anchor : Point) (f : CursorSample) : Prop :=
  (dwellDist anchor (s_x f) (s_y f) >? DWELL_RADIUS)%js = false.

(** The dwell duration has elapsed at the sample (the test
    [elapsed >= DWELL_DURATION] of the code). *)
Definition due (d : DwellState) (f : CursorSample) : bool :=
  (s_now f - d_startTime d >=? DWELL_DURATION)%js.

(** The progress shown while a dwell is running. *)
Definition progressAt (d : DwellState) (f : CursorSample) : number :=
  JS.min (Fin 1) ((s_now f - d_startTime d) / DWELL_DURATION)%js.

(** The number of dwell events in the outputs of a run. *)
Definition dwellEvents (outs : list (number * bool)) : nat :=
  length (filter snd outs).

(** An armed detector anchored at the centre, its timer started at 0, and
    a stay of three frames around the anchor, at 100, 700 and 800 ms. *)
Definition heldDwell : DwellState :=
  mkDwell (mkPoint (Fin 0.5) (Fin 0.5)) (Fin 0) false.

Definition heldBefore : list CursorSample :=
  [mkSample (Fin 0.5) (Fin 0.5) (Fin 100)].
Definition heldAt : CursorSample := mkSample (Fin 0.51) (Fin 0.5) (Fin 700).
Definition heldAfter : list CursorSample :=
  [mkSample (Fin 0.5) (Fin 0.5) (Fin 800)].

(** A stay interrupted by a drift out of the radius at 500 ms. *)
Definition driftSamples : list CursorSample :=
  [ mkSample (Fin 0.5) (Fin 0.5) (Fin 100);
    mkSample (Fin 0.6) (Fin 0.5) (Fin 500);
    mkSample (Fin 0.6) (Fin 0.5) (Fin 1000);
    mkSample (Fin 0.6) (Fin 0.5) (Fin 1099);
    mkSample (Fin 0.6) (Fin 0.5) (Fin 1100) ].

(** Events other than the timeout: what can happen while the debounce
    window of a blink sequence is open. *)
Definition noTimer (e : Event) : Prop :=
  match e with TimerFired _ => False | _ => True end.

(** The gesture state of the component: what the blink and dwell gestures
    read and write. *)
Definition gestureState (s : App)
  : nat * option Z * option AppId * option AppId * option AppId :=
  (blinkCount s, doubleBlinkTimer s, firstBlinkHitRef s, activeApp s, activeAppRef s).

(** An event reporting a blink and a dwell with the cursor over the mail
    icon. *)
Definition blinkAndDwellOnMail : VisionEvent :=
  {| ev_cursor := mkPoint (Fin 0.4) (Fin 0.5);
     ev_rawHead := mkPoint (Fin 0.5) (Fin 0.5);
     ev_isBlinking := false;
     ev_ear := Fin 0.6;
     ev_didBlink := true;
     ev_dwellProgress := Fin 0;
     ev_didDwell := true |}.

(** A blink with the cursor over the mail icon, and a later frame, without
    a blink, with the cursor over the weather icon. *)
Definition blinkOnMail : VisionEvent :=
  {| ev_cursor := mkPoint (Fin 0.4) (Fin 0.5);
     ev_rawHead := mkPoint (Fin 0.5) (Fin 0.5);
     ev_isBlinking := false;
     ev_ear := Fin 0.6;
     ev_didBlink := true;
     ev_dwellProgress := Fin 0;
     ev_didDwell := false |}.

Definition moveToWeather : VisionEvent :=
  {| ev_cursor := mkPoint (Fin 0.6) (Fin 0.5);
     ev_rawHead := mkPoint (Fin 0.45) (Fin 0.5);
     ev_isBlinking := false;
     ev_ear := Fin 0.6;
     ev_didBlink := false;
     ev_dwellProgress := Fin 0.1;
     ev_didDwell := false |}.

(** The component in a given status (state and ref), with a given blink
    count, captured target and active app. *)
Definition appIn (st : AppStatus) (count : nat) (captured active : option AppId)
    (timer : option Z) : App :=
  {| status := st;
     cursor := mkPoint (Fin 0.5) (Fin 0.5);
     rawHead := None;
     isBlinking := false;
     gestureProgress := Fin 0;
     activeApp := active;
     hoveredAppId := None;
     activeAppRef := active;
     statusRef := st;
     firstBlinkHitRef := captured;
     blinkCount := count;
     doubleBlinkTimer := timer |}.

(** The raw value that an affine head-to-screen relation with bounds [s]
    and [e] produces when the user looks at screen coordinate [screen], and
    the four measurements it produces at the calibration targets. *)
Definition affineRaw (s e screen : R) : R := s + screen * (e - s).

Definition cornerSamples (sx ex sy ey : R) : list Point :=
  [ mkPoint (Fin (affineRaw sx ex 0.1)) (Fin (affineRaw sy ey 0.1));
    mkPoint (Fin (affineRaw sx ex 0.9)) (Fin (affineRaw sy ey 0.1));
    mkPoint (Fin (affineRaw sx ex 0.9)) (Fin (affineRaw sy ey 0.9));
    mkPoint (Fin (affineRaw sx ex 0.1)) (Fin (affineRaw sy ey 0.9)) ].

(** Two points whose coordinates are finite and differ by less than [tol]. *)
Definition closeTo (tol : R) (p q : Point) : Prop :=
  exists px py qx qy,
    p = mkPoint (Fin px) (Fin py) /\ q = mkPoint (Fin qx) (Fin qy) /\
    Rabs (px - qx) < tol /\ Rabs (py - qy) < tol.

(** The mapper as a function from a raw point to a screen point. *)
Definition mapPoint (cal : option CalibrationConfig) (raw : Point) : Point :=
  let t := mapToScreen cal (x raw) (y raw) in mkPoint (fst t) (snd t).

(* ================================================================== *)
(** ** [components/CalibrationScreen.tsx]: the capture sequence *)
(* ================================================================== *)

(** Helper for the preview of the raw head position (uncalibrated). *)
Definition getPreviewPosition (raw : Point) : Point :=
  let SENSITIVITY := Fin 2.5 in
  let x0 := (Fin 1 - (Fin 0.5 + (x raw - Fin 0.5) * SENSITIVITY))%js in
  let y0 := (Fin 0.5 + (y raw - Fin 0.5) * SENSITIVITY)%js in
  let x1 := JS.max (Fin 0) (JS.min (Fin 1) x0) in
  let y1 := JS.max (Fin 0) (JS.min (Fin 1) y0) in
  mkPoint (x1 * Fin 100)%js (y1 * Fin 100)%js.

Module CalibrationScreen.

Definition CAPTURE_DURATION : number := Fin 1000.
Definition SETTLE_DELAY : number := Fin 1000.

(** The state and the refs of the component; [settlePending] is the
    timeout armed by [startStep] that has not fired yet. *)
Record State : Type := mkState {
  step : nat;
  progress : number;
  isCapturing : bool;
  measurements : list Point;
  progressRef : number;
  samplesRef : list Point;
  settlePending : bool
}.

Definition initial : State :=
  {| step := 0; progress := Fin 0; isCapturing := false; measurements := [];
     progressRef := Fin 0; samplesRef := []; settlePending := false |}.

(** [startStep], run by the effect on [step]: reset, then wait
    [SETTLE_DELAY] before capturing. *)
Definition startStep (s : State) : State :=
  {| step := step s; progress := Fin 0; isCapturing := false;
     measurements := measurements s;
     progressRef := Fin 0; samplesRef := []; settlePending := true |}.

(** The timeout of [startStep] fires. *)
Definition settled (s : State) : State :=
  if settlePending s then
    {| step := step s; progress := progress s; isCapturing := true;
       measurements := measurements s;
       progressRef := progressRef s; samplesRef := samplesRef s;
       settlePending := false |}
  else s.

(** [samples.reduce((sum, p) => sum + p.x, 0) / samples.length], and the
    same for [y]. *)
Definition averageX (samples : list Point) : number :=
  (fold_left (fun sum p => sum + x p) samples (Fin 0)
   / Fin (INR (length samples)))%js.

Definition averageY (samples : list Point) : number :=
  (fold_left (fun sum p => sum + y p) samples (Fin 0)
   / Fin (INR (length samples)))%js.

Definition average (samples : list Point) : Point :=
  mkPoint (averageX samples) (averageY samples).

(** [finishStep]: nothing without samples; otherwise the average becomes
    the measurement of the step, and either the next step starts (the
    effect on [step] runs [startStep]) or [computeCalibration] runs on the
    measurements.  The second component is the argument of [onComplete],
    when it is called. *)
Definition finishStep (s : State) : State * option CalibrationConfig :=
  match samplesRef s with
  | [] => (s, None)
  | _ :: _ =>
      let newMeasurements := measurements s ++ [average (samplesRef s)] in
      if Nat.ltb (step s) (length POINTS - 1) then
        (startStep
           {| step := S (step s); progress := progress s;
              isCapturing := isCapturing s;
              measurements := newMeasurements;
              progressRef := progressRef s; samplesRef := samplesRef s;
              settlePending := settlePending s |},
         None)
      else
        ({| step := step s; progress := progress s;
            isCapturing := isCapturing s;
            measurements := newMeasurements;
            progressRef := progressRef s; samplesRef := samplesRef s;
            settlePending := settlePending s |},
         computeCalibration newMeasurements)
  end.

(** The effect on [rawHead] and [isCapturing]: one more sample, the progress
    advanced by the share of a 16 ms frame in [CAPTURE_DURATION], the step
    finished when the progress is full. *)
Definition capture (s : State) (rawHead : option Point)
  : State * option CalibrationConfig :=
  match rawHead with
  | None => (s, None)
  | Some head =>
      if negb (isCapturing s) then (s, None)
      else
        let samples := samplesRef s ++ [head] in
        let increment := (Fin 100 / (CAPTURE_DURATION / Fin 16))%js in
        let nextProgress := JS.min (Fin 100) (progressRef s + increment)%js in
        if (nextProgress >=? Fin 100)%js then
          finishStep
            {| step := step s; progress := nextProgress; isCapturing := false;
               measurements := measurements s;
               progressRef := nextProgress; samplesRef := samples;
               settlePending := settlePending s |}
        else
          ({| step := step s; progress := nextProgress;
              isCapturing := isCapturing s;
              measurements := measurements s;
              progressRef := nextProgress; samplesRef := samples;
              settlePending := settlePending s |},
           None)
  end.

(** What the component reacts to: the settle timeout fires, or the capture
    effect runs with the current [rawHead] (because a new head arrived or
    because [isCapturing] changed). *)
Inductive Input : Type :=
| Settled
| RawHead (rawHead : option Point).

Definition react (s : State) (i : Input) : State * option CalibrationConfig :=
  match i with
  | Settled => (settled s, None)
  | RawHead h => capture s h
  end.

(** The inputs of a session in order; the result is the last call of
    [onComplete], if any. *)
Fixpoint session (s : State) (ins : list Input) : State * option CalibrationConfig :=
  match ins with
  | [] => (s, None)
  | i :: ins' =>
      let '(s1, out1) := react s i in
      let '(s2, out2) := session s1 ins' in
      (s2, match out2 with Some c => Some c | None => out1 end)
  end.

(** The inputs of one step: the settle timeout, then the runs of the
    capture effect, the first of them with the head current at the
    timeout. *)
Definition stepInputs (heads : list Point) : list Input :=
  Settled :: map (fun h => RawHead (Some h)) heads.

End CalibrationScreen.

(* ================================================================== *)
(** ** Vocabulary of the further statements *)
(* ================================================================== *)

(** The calibration screen waiting for the settle timeout of step [st],
    with the measurements [ms] of the earlier steps; and the screen while
    it captures, at progress [p] with the samples taken so far. *)
Definition waiting (st : nat) (ms : list Point) : CalibrationScreen.State :=
  CalibrationScreen.mkState st (Fin 0) false ms (Fin 0) [] true.

Definition capturingAt (st : nat) (ms : list Point) (p : R) (samples : list Point)
  : CalibrationScreen.State :=
  CalibrationScreen.mkState st (Fin p) true ms (Fin p) samples false.

(** The heads seen by the screen, as inputs. *)
Definition headInputs (heads : list (option Point)) : list CalibrationScreen.Input :=
  map CalibrationScreen.RawHead heads.

(** A point with finite coordinates inside a box. *)
Definition inBox (xlo xhi ylo yhi : R) (p : Point) : Prop :=
  exists px py, p = mkPoint (Fin px) (Fin py) /\
                xlo <= px <= xhi /\ ylo <= py <= yhi.

(** The service over consecutive frames: the final state and the events
    passed to [onResult]. *)
Fixpoint runFrames (vs : VisionService) (frames : list Frame)
  : VisionService * list VisionEvent :=
  match frames with
  | [] => (vs, [])
  | fr :: frames' =>
      let '(vs1, ev) := predictWebcam vs fr in
      let '(vs2, evs) := runFrames vs1 frames' in
      (vs2, match ev with Some e => e :: evs | None => evs end)
  end.

(** No two consecutive events both report a blink. *)
Fixpoint noAdjacentBlinks (l : list VisionEvent) : Prop :=
  match l with
  | e1 :: tl =>
      match tl with
      | e2 :: _ => ev_didBlink e1 = true -> ev_didBlink e2 = false
      | [] => True
      end /\ noAdjacentBlinks tl
  | [] => True
  end.

(** A frame that has no face, or whose nose landmark is finite. *)
Definition finiteNose (fr : Frame) : Prop :=
  forall lm, faceLandmarks fr = Some lm ->
             exists rx ry, lm 1%nat = mkPoint (Fin rx) (Fin ry).

(** Landmarks with finite coordinates, given by their real coordinates. *)
Definition finiteLandmarks (l : nat -> R * R) : nat -> Point :=
  fun i => mkPoint (Fin (fst (l i))) (Fin (snd (l i))).

(** The same face scaled by [k] and moved by [(tx, ty)] in the image. *)
Definition similarFace (k tx ty : R) (l : nat -> R * R) : nat -> R * R :=
  fun i => (k * fst (l i) + tx, k * snd (l i) + ty).

(** The timeout and the blink count agree: a timeout is pending exactly
    when blinks have been counted. *)
Definition windowOpen (s : App) : Prop :=
  doubleBlinkTimer s = None <-> blinkCount s = 0%nat.

(** Frames as events of the component. *)
Definition frameEvents (l : list (Z * VisionEvent)) : list Event :=
  map (fun p => VisionResult (fst p) (snd p)) l.

(** The number of frames that report a blink. *)
Definition blinksIn (l : list (Z * VisionEvent)) : nat :=
  length (filter (fun p => ev_didBlink (snd p)) l).

(* ================================================================== *)
(** ** Evaluating number expressions *)
(* ================================================================== *)

(** Unfold the operations on numbers down to the real-number tests. *)
Ltac js_unfold :=
  cbv [clamp01 JS.min JS.max JS.sub JS.add JS.neg JS.div JS.mul JS.pow2
       JS.abs Rabs JS.sqrt JS.ltb JS.leb JS.gtb JS.geb JS.eqb JS.isNaN JS.isFinite
       JS.signedInf JS.Rltb JS.Rleb JS.Reqb orb andb negb Bool.eqb
       BLINK_THRESHOLD BLINK_MIN_DURATION BLINK_MAX_DURATION
       JITTER_THRESHOLD IDLE_SMOOTHING ACTIVE_SMOOTHING MAX_SMOOTHING
       DWELL_RADIUS DWELL_DURATION] in *.

(** Decide the tests on reals that block the evaluation, one at a time,
    discarding the impossible branches by linear arithmetic. *)
Ltac js_case :=
  match goal with
  | |- context [Rcase_abs ?a] => destruct (Rcase_abs a); try lra
  | |- context [Rlt_dec ?a ?b] => destruct (Rlt_dec a b); try lra
  | |- context [Rle_dec ?a ?b] => destruct (Rle_dec a b); try lra
  | |- context [Req_dec_T ?a ?b] => destruct (Req_dec_T a b); try lra
  end.

Ltac js_done :=
  try reflexivity; try discriminate; try lra; try (f_equal; lra).

Ltac js_eval := js_unfold; repeat js_case; js_done.

Section Clamp.

Lemma clamp01_Fin (r : R) :
  exists c, clamp01 (Fin r) = Fin c /\ 0 <= c <= 1.
Proof.
  destruct (Rlt_dec r 0); [exists 0 | destruct (Rlt_dec 1 r); [exists 1 | exists r]];
    (split; [js_eval | lra]).
Qed.

Lemma clamp01_id (r : R) : 0 <= r <= 1 -> clamp01 (Fin r) = Fin r.
Proof. intros H. js_eval. Qed.

Lemma clamp01_PInf : clamp01 PInf = Fin 1.
Proof. js_eval. Qed.

Lemma clamp01_NInf : clamp01 NInf = Fin 0.
Proof. js_eval. Qed.

Lemma clamp01_NaN : clamp01 NaN = NaN.
Proof. reflexivity. Qed.

Lemma onScreen_not_NaN : ~ onScreen NaN.
Proof. intros [r [H _]]. discriminate H. Qed.

Lemma clamp01_onScreen (n : number) : n <> NaN -> onScreen (clamp01 n).
Proof.
  destruct n as [r | | |]; intros H.
  - destruct (clamp01_Fin r) as [c [Hc Hb]]. exists c. auto.
  - exists 1. rewrite clamp01_PInf. split; [reflexivity | lra].
  - exists 0. rewrite clamp01_NInf. split; [reflexivity | lra].
  - congruence.
Qed.

End Clamp.

(* ================================================================== *)
(** ** The landmark mapper (step 2 of [predictWebcam]) *)
(* ================================================================== *)

Section Mapper.

Lemma mapToScreen_calibrated (c : CalibrationConfig) (nx ny : number) :
  mapToScreen (Some c) nx ny =
  (clamp01 (calibratedRatio (cal_x c) nx), clamp01 (calibratedRatio (cal_y c) ny)).
Proof. reflexivity. Qed.

(** On an axis of zero width the ratio is infinite, and the clamp sends
    it to an edge of the screen, unless the raw value is [start] itself. *)
Lemma zeroWidth_edge (a : Axis) (s r : R) :
  start a = Fin s -> end_ a = Fin s -> r <> s ->
  clamp01 (calibratedRatio a (Fin r)) = Fin 0 \/
  clamp01 (calibratedRatio a (Fin r)) = Fin 1.
Proof.
  intros Hs He Hr. unfold calibratedRatio. rewrite Hs, He.
  destruct (Rlt_dec s r); [right | left]; js_eval.
Qed.

Lemma zeroWidth_NaN (a : Axis) (s : R) :
  start a = Fin s -> end_ a = Fin s ->
  clamp01 (calibratedRatio a (Fin s)) = NaN.
Proof.
  intros Hs He. unfold calibratedRatio. rewrite Hs, He. js_eval.
Qed.

(** Away from zero width the ratio of finite numbers is finite. *)
Lemma calibratedRatio_Fin (a : Axis) (s e r : R) :
  start a = Fin s -> end_ a = Fin e -> e <> s ->
  calibratedRatio a (Fin r) = Fin ((r - s) / (e - s)).
Proof.
  intros Hs He Hne. unfold calibratedRatio. rewrite Hs, He. js_eval.
Qed.

Lemma uncalibrated_onScreen (rx ry : R) :
  onScreen (fst (mapToScreen None (Fin rx) (Fin ry))) /\
  onScreen (snd (mapToScreen None (Fin rx) (Fin ry))).
Proof.
  cbv [mapToScreen fst snd].
  destruct (clamp01_Fin (0.5 + (rx - 0.5) * 2.5)) as [ax [Hax Bax]].
  destruct (clamp01_Fin (0.5 + (ry - 0.5) * 2.5)) as [ay [Hay Bay]].
  replace (JS.max (Fin 0) (JS.min (Fin 1) (Fin 0.5 + (Fin rx - Fin 0.5) * Fin 2.5)%js))
    with (Fin ax)
    by (rewrite <- Hax; unfold clamp01; do 3 f_equal; cbv [JS.add JS.sub JS.neg JS.mul]; f_equal; lra).
  replace (JS.max (Fin 0) (JS.min (Fin 1) (Fin 0.5 + (Fin ry - Fin 0.5) * Fin 2.5)%js))
    with (Fin ay)
    by (rewrite <- Hay; unfold clamp01; do 3 f_equal; cbv [JS.add JS.sub JS.neg JS.mul]; f_equal; lra).
  split; apply clamp01_onScreen; cbv [JS.sub JS.add JS.neg]; discriminate.
Qed.

(** With finite, non-degenerate bounds and a finite raw point the mapped
    target is on the screen. *)
Lemma calibrated_onScreen (c : CalibrationConfig) (sx ex sy ey rx ry : R) :
  start (cal_x c) = Fin sx -> end_ (cal_x c) = Fin ex -> ex <> sx ->
  start (cal_y c) = Fin sy -> end_ (cal_y c) = Fin ey -> ey <> sy ->
  onScreen (fst (mapToScreen (Some c) (Fin rx) (Fin ry))) /\
  onScreen (snd (mapToScreen (Some c) (Fin rx) (Fin ry))).
Proof.
  intros Hsx Hex Hx Hsy Hey Hy. rewrite mapToScreen_calibrated. simpl fst; simpl snd.
  rewrite (calibratedRatio_Fin _ sx ex rx Hsx Hex Hx).
  rewrite (calibratedRatio_Fin _ sy ey ry Hsy Hey Hy).
  split; apply clamp01_onScreen; discriminate.
Qed.

End Mapper.

Section MapperClaims.

(** C1 (as stated, refuted).  A stored profile with a zero-width axis does
    not make the mapper fall back to the uncalibrated mapping: for the
    profile of a motionless calibration and the raw point (0.6, 0.6) the
    calibrated branch answers (1, 1) where the fallback would answer
    (0.25, 0.75). *)
Lemma zero_width_no_fallback :
  ~ (forall (c : CalibrationConfig) (nx ny : number),
        zeroWidth (cal_x c) \/ zeroWidth (cal_y c) ->
        mapToScreen (Some c) nx ny = mapToScreen None nx ny).
Proof.
  intros H.
  specialize (H stillProfile (Fin 0.6) (Fin 0.6)).
  assert (Hz : zeroWidth (cal_x stillProfile) \/ zeroWidth (cal_y stillProfile))
    by (left; exists 0.5; split; reflexivity).
  specialize (H Hz). revert H.
  cbv [mapToScreen stillProfile cal_x cal_y start end_]. js_eval.
  intros H. injection H. intros. lra.
Qed.

(** C1 (amended).  With a stored profile the mapper always applies the
    calibrated formula and then the clamp, whatever the width of the axes;
    on a zero-width axis a raw value other than [start] is sent to an edge
    of the screen, 0 or 1, by the clamp. *)
Theorem zero_width_unguarded (c : CalibrationConfig) (nx ny : number) :
  mapToScreen (Some c) nx ny =
    (clamp01 (calibratedRatio (cal_x c) nx), clamp01 (calibratedRatio (cal_y c) ny))
  /\ (forall s r : R,
        start (cal_x c) = Fin s -> end_ (cal_x c) = Fin s -> nx = Fin r -> r <> s ->
        fst (mapToScreen (Some c) nx ny) = Fin 0 \/
        fst (mapToScreen (Some c) nx ny) = Fin 1)
  /\ (forall s r : R,
        start (cal_y c) = Fin s -> end_ (cal_y c) = Fin s -> ny = Fin r -> r <> s ->
        snd (mapToScreen (Some c) nx ny) = Fin 0 \/
        snd (mapToScreen (Some c) nx ny) = Fin 1).
Proof.
  split; [apply mapToScreen_calibrated |].
  split; intros s r Hs He Hn Hr; rewrite mapToScreen_calibrated; subst;
    [simpl fst | simpl snd]; eapply zeroWidth_edge; eauto.
Qed.

Lemma zero_width_unguarded_witness :
  (fst (mapToScreen (Some stillProfile) (Fin 0.6) (Fin 0.4)) = Fin 0 \/
   fst (mapToScreen (Some stillProfile) (Fin 0.6) (Fin 0.4)) = Fin 1) /\
  (snd (mapToScreen (Some stillProfile) (Fin 0.6) (Fin 0.4)) = Fin 0 \/
   snd (mapToScreen (Some stillProfile) (Fin 0.6) (Fin 0.4)) = Fin 1).
Proof.
  destruct (zero_width_unguarded stillProfile (Fin 0.6) (Fin 0.4)) as [_ [Hx Hy]].
  split.
  - apply (Hx 0.5 0.6); [reflexivity | reflexivity | reflexivity | lra].
  - apply (Hy 0.5 0.4); [reflexivity | reflexivity | reflexivity | lra].
Defined.

Lemma computeCalibration_still :
  computeCalibration stillMeasurements = Some stillProfile.
Proof.
  cbv [computeCalibration stillMeasurements stillProfile x y].
  js_eval. repeat f_equal; lra.
Qed.

(** C7 (the code at the failing input).  After a calibration during which
    the head did not move, a raw point at the calibrated position is
    mapped to [NaN] on both axes: the final clamp lets [NaN] through, and
    the target is not in the unit square. *)
Theorem mapper_NaN_escapes_clamp :
  computeCalibration stillMeasurements = Some stillProfile /\
  mapToScreen (Some stillProfile) (Fin 0.5) (Fin 0.5) = (NaN, NaN) /\
  ~ onScreen (fst (mapToScreen (Some stillProfile) (Fin 0.5) (Fin 0.5))) /\
  ~ onScreen (snd (mapToScreen (Some stillProfile) (Fin 0.5) (Fin 0.5))).
Proof.
  assert (E : mapToScreen (Some stillProfile) (Fin 0.5) (Fin 0.5) = (NaN, NaN))
    by (cbv [mapToScreen stillProfile cal_x cal_y start end_]; js_eval).
  split; [apply computeCalibration_still |].
  split; [exact E |].
  rewrite E. split; apply onScreen_not_NaN.
Qed.

End MapperClaims.

(* ================================================================== *)
(** ** The adaptive cursor filter (step 3 of [predictWebcam]) *)
(* ================================================================== *)

Section Filter.

Lemma sumsq_nonneg (a b : R) : 0 <= a * a + b * b.
Proof. nra. Qed.

Lemma gain_bounds (d : R) : 0.02 <= gain d <= 0.5.
Proof.
  unfold gain. destruct (Rlt_dec d 0.002); [lra |].
  unfold Rmin. destruct (Rle_dec (0.1 + 5 * d) 0.5); lra.
Qed.

Lemma smoothingAlpha_Fin (d : R) : smoothingAlpha (Fin d) = Fin (gain d).
Proof.
  unfold smoothingAlpha, gain, Rmin. js_unfold.
  destruct (Rlt_dec d 0.002); [reflexivity |].
  destruct (Rlt_dec 0.5 (0.1 + d * 5)), (Rle_dec (0.1 + 5 * d) 0.5);
    f_equal; lra.
Qed.

Lemma distance_Fin (cx cy tx ty : R) :
  JS.sqrt ((Fin tx - Fin cx) * (Fin tx - Fin cx)
           + (Fin ty - Fin cy) * (Fin ty - Fin cy))%js
  = Fin (euclid (tx - cx) (ty - cy)).
Proof.
  cbv [JS.sub JS.add JS.neg JS.mul JS.sqrt JS.Rltb euclid].
  pose proof (sumsq_nonneg (tx + - cx) (ty + - cy)).
  destruct (Rlt_dec _ 0); [lra |].
  do 2 f_equal.
Qed.

Lemma smoothCursor_Fin (cx cy tx ty : R) :
  smoothCursor (Fin cx) (Fin cy) (Fin tx) (Fin ty) =
  (Fin (cx + (tx - cx) * gain (euclid (tx - cx) (ty - cy))),
   Fin (cy + (ty - cy) * gain (euclid (tx - cx) (ty - cy)))).
Proof.
  unfold smoothCursor. rewrite distance_Fin, smoothingAlpha_Fin.
  cbv [JS.sub JS.add JS.neg JS.mul]. reflexivity.
Qed.

(** A [NaN] target, or a [NaN] cursor, gives a [NaN] cursor. *)
Lemma smoothCursor_NaN_target (cx cy : number) :
  smoothCursor cx cy NaN NaN = (NaN, NaN).
Proof. destruct cx, cy; reflexivity. Qed.

Lemma smoothCursor_NaN_targetX (cx cy ty : number) :
  fst (smoothCursor cx cy NaN ty) = NaN.
Proof. destruct cx; reflexivity. Qed.

Lemma smoothCursor_NaN_cursor (cy tx ty : number) :
  fst (smoothCursor NaN cy tx ty) = NaN.
Proof.
  unfold smoothCursor. simpl fst.
  replace (tx - NaN)%js with NaN by (destruct tx; reflexivity).
  reflexivity.
Qed.

(** The update is a convex combination: a cursor and a target on the
    screen give a cursor on the screen. *)
Lemma smoothCursor_onScreen (cx cy tx ty : number) :
  onScreen cx -> onScreen cy -> onScreen tx -> onScreen ty ->
  onScreen (fst (smoothCursor cx cy tx ty)) /\
  onScreen (snd (smoothCursor cx cy tx ty)).
Proof.
  intros [rcx [-> Hcx]] [rcy [-> Hcy]] [rtx [-> Htx]] [rty [-> Hty]].
  rewrite smoothCursor_Fin. simpl fst; simpl snd.
  pose proof (gain_bounds (euclid (rtx - rcx) (rty - rcy))) as Hg.
  set (g := gain _) in *.
  split; eexists; (split; [reflexivity | nra]).
Qed.

(** The gain at the distances the specification asks to test. *)
Lemma gain_examples :
  gain 0 = 0.02 /\ gain 0.001 = 0.02 /\ gain 0.002 = 0.11 /\
  gain 0.003 = 0.115 /\ gain 1 = 0.5.
Proof.
  unfold gain, Rmin.
  repeat split;
    repeat match goal with
           | |- context [Rlt_dec ?a ?b] => destruct (Rlt_dec a b); try lra
           | |- context [Rle_dec ?a ?b] => destruct (Rle_dec a b); try lra
           end.
Qed.

(** C4.  With [d] the Euclidean distance between the previous cursor and
    the target, the smoothing factor is 0.02 when [d < 0.002] and
    [min (0.1 + 5 d) 0.5] otherwise, and each coordinate of the cursor
    moves by that fraction of its distance to the target. *)
Theorem filter_gain (cx cy tx ty : R) :
  let d := euclid (tx - cx) (ty - cy) in
  (d < 0.002 -> smoothingAlpha (Fin d) = Fin 0.02) /\
  (0.002 <= d -> smoothingAlpha (Fin d) = Fin (Rmin (0.1 + 5 * d) 0.5)) /\
  smoothCursor (Fin cx) (Fin cy) (Fin tx) (Fin ty) =
    (Fin cx + (Fin tx - Fin cx) * smoothingAlpha (Fin d),
     Fin cy + (Fin ty - Fin cy) * smoothingAlpha (Fin d))%js /\
  smoothCursor (Fin cx) (Fin cy) (Fin tx) (Fin ty) =
    (Fin (cx + (tx - cx) * gain d), Fin (cy + (ty - cy) * gain d)).
Proof.
  intros d. repeat split.
  - intros Hd. rewrite smoothingAlpha_Fin. unfold gain.
    destruct (Rlt_dec d 0.002); [reflexivity | lra].
  - intros Hd. rewrite smoothingAlpha_Fin. unfold gain.
    destruct (Rlt_dec d 0.002); [lra | reflexivity].
  - unfold smoothCursor. rewrite distance_Fin. reflexivity.
  - apply smoothCursor_Fin.
Qed.

Lemma filter_gain_witness :
  smoothingAlpha (Fin (euclid (0.5 - 0.5) (0.5 - 0.5))) = Fin 0.02 /\
  smoothingAlpha (Fin (euclid (1 - 0) (0 - 0)))
    = Fin (Rmin (0.1 + 5 * euclid (1 - 0) (0 - 0)) 0.5).
Proof.
  split.
  - apply (proj1 (filter_gain 0.5 0.5 0.5 0.5)).
    unfold euclid. replace ((0.5 - 0.5) * (0.5 - 0.5) + (0.5 - 0.5) * (0.5 - 0.5)) with 0 by lra.
    rewrite sqrt_0. lra.
  - apply (proj1 (proj2 (filter_gain 0 0 1 0))).
    unfold euclid. replace ((1 - 0) * (1 - 0) + (0 - 0) * (0 - 0)) with 1 by lra.
    rewrite sqrt_1. lra.
Defined.

End Filter.

(* ================================================================== *)
(** ** The cursor across frames *)
(* ================================================================== *)

Section CursorState.

(** The cursor after a frame with a face is the smoothed cursor; the blink
    and the dwell steps do not touch it. *)
Lemma predictWebcam_cursor (vs : VisionService) (fr : Frame) (lm : nat -> Point) :
  faceLandmarks fr = Some lm ->
  let t := mapToScreen (calibration vs) (x (lm 1%nat)) (y (lm 1%nat)) in
  let vs' := fst (predictWebcam vs fr) in
  (cursorX vs', cursorY vs') = smoothCursor (cursorX vs) (cursorY vs) (fst t) (snd t)
  /\ calibration vs' = calibration vs.
Proof.
  intros Hlm. unfold predictWebcam. rewrite Hlm.
  destruct (mapToScreen _ _ _) as [tx ty].
  destruct (smoothCursor _ _ tx ty) as [cx cy] eqn:Hs.
  destruct (blinkStep _ _ _) as [bst didBlink].
  destruct (dwellStep _ _ _ _) as [[d progress] didDwell].
  simpl. rewrite Hs. auto.
Qed.

(** A frame without a face leaves the service as it is. *)
Lemma predictWebcam_no_face (vs : VisionService) (fr : Frame) :
  faceLandmarks fr = None -> predictWebcam vs fr = (vs, None).
Proof. intros H. unfold predictWebcam. rewrite H. reflexivity. Qed.

Lemma usable_onScreen (cal : option CalibrationConfig) (rx ry : R) :
  usable cal ->
  onScreen (fst (mapToScreen cal (Fin rx) (Fin ry))) /\
  onScreen (snd (mapToScreen cal (Fin rx) (Fin ry))).
Proof.
  intros [| c sx ex sy ey Hsx Hex Hx Hsy Hey Hy].
  - apply uncalibrated_onScreen.
  - eapply calibrated_onScreen; eauto.
Qed.

(** Under a usable profile, a frame whose nose landmark is finite keeps a
    cursor that is on the screen on the screen. *)
Lemma cursor_onScreen_preserved (vs : VisionService) (fr : Frame) :
  usable (calibration vs) ->
  (forall lm, faceLandmarks fr = Some lm ->
              exists rx ry, lm 1%nat = mkPoint (Fin rx) (Fin ry)) ->
  onScreen (cursorX vs) /\ onScreen (cursorY vs) ->
  onScreen (cursorX (fst (predictWebcam vs fr))) /\
  onScreen (cursorY (fst (predictWebcam vs fr))).
Proof.
  intros Hu Hnose [Hx Hy].
  destruct (faceLandmarks fr) as [lm |] eqn:Hlm.
  - destruct (Hnose lm eq_refl) as [rx [ry Hn]].
    destruct (predictWebcam_cursor vs fr lm Hlm) as [Hc _].
    rewrite Hn in Hc. simpl x in Hc; simpl y in Hc.
    destruct (usable_onScreen (calibration vs) rx ry Hu) as [Htx Hty].
    destruct (smoothCursor_onScreen _ _ _ _ Hx Hy Htx Hty) as [H1 H2].
    rewrite <- Hc in H1, H2. simpl in H1, H2. auto.
  - rewrite predictWebcam_no_face by assumption. auto.
Qed.

(** Once [NaN], the cursor stays [NaN] at every later frame, whatever the
    frame and the profile. *)
Lemma cursor_NaN_sticky (vs : VisionService) (fr : Frame) :
  cursorX vs = NaN -> cursorX (fst (predictWebcam vs fr)) = NaN.
Proof.
  intros HN.
  destruct (faceLandmarks fr) as [lm |] eqn:Hlm.
  - destruct (predictWebcam_cursor vs fr lm Hlm) as [Hc _].
    rewrite HN in Hc.
    apply (f_equal fst) in Hc. rewrite smoothCursor_NaN_cursor in Hc. exact Hc.
  - rewrite predictWebcam_no_face by assumption. exact HN.
Qed.

(** On a zero-width x axis, a frame whose nose is at [start] makes the
    cursor [NaN], whatever the cursor was. *)
Lemma cursor_NaN_on_zero_width (vs : VisionService) (fr : Frame)
    (lm : nat -> Point) (c : CalibrationConfig) (s : R) :
  faceLandmarks fr = Some lm ->
  calibration vs = Some c ->
  start (cal_x c) = Fin s -> end_ (cal_x c) = Fin s ->
  x (lm 1%nat) = Fin s ->
  cursorX (fst (predictWebcam vs fr)) = NaN.
Proof.
  intros Hlm Hc Hs He Hn.
  destruct (predictWebcam_cursor vs fr lm Hlm) as [H _].
  rewrite Hc, mapToScreen_calibrated, Hn in H. cbn [fst snd] in H.
  rewrite (zeroWidth_NaN _ s Hs He) in H.
  apply (f_equal fst) in H. rewrite smoothCursor_NaN_targetX in H. exact H.
Qed.

(** C6 (the code at the failing input).  A service created with the
    profile of a motionless calibration starts at (0.5, 0.5); the first
    frame with the nose at the calibrated position sets both cursor
    coordinates to [NaN], outside the unit square, and no later frame
    brings the cursor back. *)
Theorem cursor_leaves_unit_square :
  let vs0 := newVisionService (computeCalibration stillMeasurements) in
  let vs1 := fst (predictWebcam vs0 stillFrame) in
  cursorX vs0 = Fin 0.5 /\ cursorY vs0 = Fin 0.5 /\
  cursorX vs1 = NaN /\ cursorY vs1 = NaN /\
  ~ onScreen (cursorX vs1) /\ ~ onScreen (cursorY vs1) /\
  (forall fr, cursorX (fst (predictWebcam vs1 fr)) = NaN).
Proof.
  intros vs0 vs1.
  assert (E : (cursorX vs1, cursorY vs1) = (NaN, NaN)).
  { subst vs1.
    destruct (predictWebcam_cursor vs0 stillFrame _ eq_refl) as [Hc _].
    rewrite Hc. subst vs0. rewrite computeCalibration_still.
    cbv [calibration newVisionService openFace Nat.eqb x y cursorX cursorY].
    replace (mapToScreen (Some stillProfile) (Fin 0.5) (Fin 0.5)) with (NaN, NaN)
      by (cbv [mapToScreen stillProfile cal_x cal_y start end_]; js_eval).
    reflexivity. }
  injection E as EX EY.
  split; [reflexivity |]. split; [reflexivity |].
  split; [exact EX |]. split; [exact EY |].
  split; [rewrite EX; apply onScreen_not_NaN |].
  split; [rewrite EY; apply onScreen_not_NaN |].
  intros fr. apply cursor_NaN_sticky. exact EX.
Qed.

End CursorState.

(* ================================================================== *)
(** ** The blink detector (step 4 of [predictWebcam]) *)
(* ================================================================== *)

Section Blink.

(** The blink fields after a frame with a face are those of [blinkStep]
    run on the thresholded eye aspect ratio. *)
Lemma predictWebcam_blink (vs : VisionService) (fr : Frame) (lm : nat -> Point) :
  faceLandmarks fr = Some lm ->
  exists ev,
    snd (predictWebcam vs fr) = Some ev /\
    ev_isBlinking ev = (ev_ear ev <? BLINK_THRESHOLD)%js /\
    (blinkStartTime (fst (predictWebcam vs fr)), ev_didBlink ev)
    = blinkStep (blinkStartTime vs) (ev_isBlinking ev) (nowBlink fr).
Proof.
  intros Hlm. unfold predictWebcam. rewrite Hlm.
  destruct (mapToScreen _ _ _) as [tx ty].
  destruct (smoothCursor _ _ tx ty) as [cx cy].
  destruct (blinkStep _ _ _) as [bst didBlink] eqn:Hb.
  destruct (dwellStep _ _ _ _) as [[d progress] didDwell].
  eexists. split; [reflexivity |]. simpl. rewrite Hb. auto.
Qed.

Lemma blink_onset (now : number) :
  blinkStep (Fin (-1)) true now = (now, false).
Proof. unfold blinkStep. js_eval. Qed.

Lemma blink_held (t0 : R) (now : number) :
  0 <= t0 -> blinkStep (Fin t0) true now = (Fin t0, false).
Proof. intros H. unfold blinkStep. js_eval. Qed.

Lemma blink_release (t0 now : R) :
  0 <= t0 ->
  blinkStep (Fin t0) false (Fin now)
  = (Fin (-1), JS.Rleb 100 (now - t0) && JS.Rleb (now - t0) 300).
Proof.
  intros H. unfold blinkStep.
  cbv [JS.eqb JS.Reqb]. destruct (Req_dec_T t0 (-1)); [lra |].
  cbv [negb BLINK_MIN_DURATION BLINK_MAX_DURATION JS.geb JS.leb JS.sub JS.add JS.neg].
  reflexivity.
Qed.

(** C3.  With eyes open and no closure running, a closed frame records its
    time as the start; while the eyes stay closed the start is kept; at
    the first open frame after a closure started at [t0] a blink is
    reported exactly when [100 <= now - t0 <= 300], and the start is
    cleared whatever the duration. *)
Theorem blink_duration_gate (t0 now : R) :
  0 <= t0 ->
  blinkStep (Fin (-1)) true (Fin t0) = (Fin t0, false) /\
  (forall t, blinkStep (Fin t0) true t = (Fin t0, false)) /\
  fst (blinkStep (Fin t0) false (Fin now)) = Fin (-1) /\
  (snd (blinkStep (Fin t0) false (Fin now)) = true <-> 100 <= now - t0 <= 300) /\
  (now - t0 < 100 \/ 300 < now - t0 ->
   blinkStep (Fin t0) false (Fin now) = (Fin (-1), false)).
Proof.
  intros H0.
  split; [apply blink_onset |].
  split; [intros t; apply blink_held; assumption |].
  rewrite blink_release by assumption. simpl fst; simpl snd.
  split; [reflexivity |].
  unfold JS.Rleb.
  destruct (Rle_dec 100 (now - t0)), (Rle_dec (now - t0) 300); simpl;
    (split; [split; [intros; try discriminate; lra | intros; try reflexivity; lra]
            | intros [?|?]; try reflexivity; lra]).
Qed.

Lemma blink_duration_gate_witness :
  snd (blinkStep (Fin 1000) false (Fin 1150)) = true <-> 100 <= 1150 - 1000 <= 300.
Proof.
  assert (H : 0 <= 1000) by lra.
  exact (proj1 (proj2 (proj2 (proj2 (blink_duration_gate 1000 1150 H))))).
Defined.

(** The durations of the specification's examples: 50, 150 and 350 ms. *)
Lemma blink_examples :
  snd (blinkStep (Fin 1000) false (Fin 1050)) = false /\
  snd (blinkStep (Fin 1000) false (Fin 1150)) = true /\
  snd (blinkStep (Fin 1000) false (Fin 1350)) = false.
Proof.
  repeat split; (rewrite blink_release by lra); simpl snd; js_eval.
Qed.

End Blink.

(* ================================================================== *)
(** ** The dwell detector (step 5 of [predictWebcam]) *)
(* ================================================================== *)

Section Dwell.

(** The dwell fields after a frame with a face are those of [dwellStep]
    run on the new cursor. *)
Lemma predictWebcam_dwell (vs : VisionService) (fr : Frame) (lm : nat -> Point) :
  faceLandmarks fr = Some lm ->
  let vs' := fst (predictWebcam vs fr) in
  exists ev,
    snd (predictWebcam vs fr) = Some ev /\
    (mkDwell (dwellAnchor vs') (dwellStartTime vs') (hasTriggeredDwell vs'),
     ev_dwellProgress ev, ev_didDwell ev)
    = dwellStep (mkDwell (dwellAnchor vs) (dwellStartTime vs) (hasTriggeredDwell vs))
                (cursorX vs') (cursorY vs') (nowDwell fr).
Proof.
  intros Hlm. unfold predictWebcam. rewrite Hlm.
  destruct (mapToScreen _ _ _) as [tx ty].
  destruct (smoothCursor _ _ tx ty) as [cx cy].
  destruct (blinkStep _ _ _) as [bst didBlink].
  destruct (dwellStep _ _ _ _) as [[d progress] didDwell] eqn:Hd.
  eexists. split; [reflexivity |]. simpl. rewrite Hd. destruct d; reflexivity.
Qed.

Lemma dwellStep_exit (d : DwellState) (f : CursorSample) :
  ~ inRadius (d_anchor d) f ->
  dwellStep d (s_x f) (s_y f) (s_now f)
  = (mkDwell (mkPoint (s_x f) (s_y f)) (s_now f) false, Fin 0, false).
Proof.
  unfold inRadius, dwellStep. intros H.
  destruct (JS.gtb _ _); [reflexivity | congruence].
Qed.

Lemma dwellStep_triggered (d : DwellState) (f : CursorSample) :
  inRadius (d_anchor d) f -> d_triggered d = true ->
  dwellStep d (s_x f) (s_y f) (s_now f) = (d, Fin 0, false).
Proof.
  unfold inRadius, dwellStep. intros -> ->. reflexivity.
Qed.

Lemma dwellStep_pending (d : DwellState) (f : CursorSample) :
  inRadius (d_anchor d) f -> d_triggered d = false -> due d f = false ->
  dwellStep d (s_x f) (s_y f) (s_now f) = (d, progressAt d f, false).
Proof.
  unfold inRadius, dwellStep, due. intros -> -> ->. reflexivity.
Qed.

Lemma dwellStep_fire (d : DwellState) (f : CursorSample) :
  inRadius (d_anchor d) f -> d_triggered d = false -> due d f = true ->
  dwellStep d (s_x f) (s_y f) (s_now f)
  = (mkDwell (d_anchor d) (d_startTime d) true, Fin 0, true).
Proof.
  unfold inRadius, dwellStep, due. intros -> -> ->. reflexivity.
Qed.

(** After the event, frames within the radius report nothing and change
    nothing. *)
Lemma dwellRun_triggered (d : DwellState) (fs : list CursorSample) :
  d_triggered d = true ->
  Forall (inRadius (d_anchor d)) fs ->
  dwellRun d fs = (d, map (fun _ => (Fin 0, false)) fs).
Proof.
  intros Ht Hin. induction Hin as [| f fs Hf _ IH]; [reflexivity |].
  simpl. rewrite dwellStep_triggered, IH by assumption. reflexivity.
Qed.

(** Before the duration has elapsed, frames within the radius report the
    progress and change nothing. *)
Lemma dwellRun_pending (d : DwellState) (fs : list CursorSample) :
  d_triggered d = false ->
  Forall (inRadius (d_anchor d)) fs ->
  Forall (fun g => due d g = false) fs ->
  dwellRun d fs = (d, map (fun g => (progressAt d g, false)) fs).
Proof.
  intros Ht Hin Hdue. induction Hin as [| f fs Hf _ IH]; [reflexivity |].
  inversion Hdue as [| ? ? Hd Hds]; subst.
  simpl. rewrite dwellStep_pending, IH by assumption. reflexivity.
Qed.

Lemma dwellRun_app (d : DwellState) (fs gs : list CursorSample) :
  dwellRun d (fs ++ gs)
  = (fst (dwellRun (fst (dwellRun d fs)) gs),
     snd (dwellRun d fs) ++ snd (dwellRun (fst (dwellRun d fs)) gs)).
Proof.
  revert d. induction fs as [| f fs IH]; intros d; simpl.
  - destruct (dwellRun d gs); reflexivity.
  - destruct (dwellStep d (s_x f) (s_y f) (s_now f)) as [[d1 p] b].
    rewrite IH. destruct (dwellRun d1 fs) as [d2 outs]. reflexivity.
Qed.

Lemma dwellEvents_app (a b : list (number * bool)) :
  dwellEvents (a ++ b) = (dwellEvents a + dwellEvents b)%nat.
Proof. unfold dwellEvents. rewrite filter_app, length_app. reflexivity. Qed.

Lemma dwellEvents_none {A : Type} (g : A -> number) (l : list A) :
  dwellEvents (map (fun a => (g a, false)) l) = 0%nat.
Proof. unfold dwellEvents. induction l; simpl; auto. Qed.

(** A stay within the radius that reaches the duration: the run up to,
    at and after the first frame that is due. *)
Lemma dwellRun_stay (d : DwellState) (pre post : list CursorSample) (f : CursorSample) :
  d_triggered d = false ->
  Forall (inRadius (d_anchor d)) (pre ++ f :: post) ->
  Forall (fun g => due d g = false) pre ->
  due d f = true ->
  dwellRun d (pre ++ f :: post)
  = (mkDwell (d_anchor d) (d_startTime d) true,
     map (fun g => (progressAt d g, false)) pre
     ++ (Fin 0, true) :: map (fun _ => (Fin 0, false)) post).
Proof.
  intros Ht Hin Hpre Hf.
  apply Forall_app in Hin. destruct Hin as [Hin_pre Hin_rest].
  inversion Hin_rest as [| ? ? Hin_f Hin_post]; subst.
  rewrite dwellRun_app, (dwellRun_pending d pre) by assumption.
  simpl fst; simpl snd. simpl dwellRun.
  rewrite dwellStep_fire by assumption.
  rewrite dwellRun_triggered by (simpl; auto).
  reflexivity.
Qed.

End Dwell.

Section DwellClaims.

Lemma euclid_le_iff (a b c : R) :
  0 <= c -> (euclid a b <= c <-> a * a + b * b <= c * c).
Proof.
  intros Hc. unfold euclid.
  pose proof (sumsq_nonneg a b) as Hs.
  assert (Hcc : 0 <= c * c) by nra.
  rewrite <- (sqrt_square c) at 1 by assumption.
  split; intros H.
  - apply sqrt_le_0; assumption.
  - apply sqrt_le_1_alt; assumption.
Qed.

Lemma dwellDist_Fin (ax ay cx cy : R) :
  dwellDist (mkPoint (Fin ax) (Fin ay)) (Fin cx) (Fin cy)
  = Fin (euclid (cx - ax) (cy - ay)).
Proof.
  cbv [dwellDist x y JS.pow2 JS.sub JS.add JS.neg JS.mul JS.sqrt JS.Rltb euclid].
  pose proof (sumsq_nonneg (cx + - ax) (cy + - ay)).
  destruct (Rlt_dec _ 0); [lra |].
  do 2 f_equal.
Qed.

(** For finite coordinates, being within the radius is the Euclidean
    distance being at most 0.04. *)
Lemma inRadius_Fin (ax ay cx cy : R) (t : number) :
  inRadius (mkPoint (Fin ax) (Fin ay)) (mkSample (Fin cx) (Fin cy) t)
  <-> (cx - ax) * (cx - ax) + (cy - ay) * (cy - ay) <= 0.04 * 0.04.
Proof.
  unfold inRadius. simpl s_x; simpl s_y. rewrite dwellDist_Fin.
  rewrite <- euclid_le_iff by lra.
  cbv [JS.gtb JS.ltb JS.Rltb DWELL_RADIUS].
  destruct (Rlt_dec 0.04 (euclid (cx - ax) (cy - ay))); split; intros; try lra; try discriminate; reflexivity.
Qed.

(** C5.  From an armed detector, over frames that stay within the radius
    of the anchor, [f] being the first at which the duration has elapsed:
    the run reports exactly one dwell event, at [f], with progress 0 and
    the triggered flag set, the anchor and the start time kept; further
    frames within the radius report no event; and a frame outside the
    radius, from any state, moves the anchor to the cursor, restarts the
    timer at that frame and clears the flag, arming the detector again. *)
Theorem dwell_fires_once (d : DwellState) (pre post : list CursorSample)
    (f : CursorSample) :
  d_triggered d = false ->
  Forall (inRadius (d_anchor d)) (pre ++ f :: post) ->
  Forall (fun g => due d g = false) pre ->
  due d f = true ->
  let d' := fst (dwellRun d (pre ++ f :: post)) in
  let outs := snd (dwellRun d (pre ++ f :: post)) in
  dwellEvents outs = 1%nat /\
  nth (length pre) outs (Fin 0, false) = (Fin 0, true) /\
  dwellEvents (firstn (length pre) outs) = 0%nat /\
  d' = mkDwell (d_anchor d) (d_startTime d) true /\
  (forall more, Forall (inRadius (d_anchor d)) more ->
                dwellRun d' more = (d', map (fun _ => (Fin 0, false)) more)) /\
  (forall (e : DwellState) (g : CursorSample),
      ~ inRadius (d_anchor e) g ->
      dwellStep e (s_x g) (s_y g) (s_now g)
      = (mkDwell (mkPoint (s_x g) (s_y g)) (s_now g) false, Fin 0, false)).
Proof.
  intros Ht Hin Hpre Hf d' outs. subst d' outs.
  rewrite dwellRun_stay by assumption. simpl fst; simpl snd.
  assert (Hlen : length (map (fun g => (progressAt d g, false)) pre) = length pre)
    by apply length_map.
  split; [| split; [| split; [| split; [| split]]]].
  - rewrite dwellEvents_app, dwellEvents_none.
    unfold dwellEvents. simpl. fold (dwellEvents (map (fun _ : CursorSample => (Fin 0, false)) post)).
    rewrite dwellEvents_none. reflexivity.
  - rewrite app_nth2 by (rewrite Hlen; lia).
    rewrite Hlen, Nat.sub_diag. reflexivity.
  - rewrite <- Hlen, firstn_app, firstn_all, Nat.sub_diag. simpl.
    rewrite app_nil_r. apply dwellEvents_none.
  - reflexivity.
  - intros more Hmore. apply dwellRun_triggered; [reflexivity | exact Hmore].
  - intros e g. apply dwellStep_exit.
Qed.

End DwellClaims.

(** Side conditions of the dwell step at concrete samples. *)
Ltac dwell_side :=
  cbn [d_anchor d_startTime d_triggered s_x s_y s_now];
  first [ apply inRadius_Fin; lra
        | rewrite inRadius_Fin; lra
        | reflexivity
        | cbv [due d_startTime s_now]; js_eval ].

Section DwellExamples.

Lemma dwell_fires_once_witness :
  dwellEvents (snd (dwellRun heldDwell (heldBefore ++ heldAt :: heldAfter))) = 1%nat /\
  nth (length heldBefore) (snd (dwellRun heldDwell (heldBefore ++ heldAt :: heldAfter)))
      (Fin 0, false) = (Fin 0, true).
Proof.
  assert (H1 : d_triggered heldDwell = false) by reflexivity.
  assert (H2 : Forall (inRadius (d_anchor heldDwell)) (heldBefore ++ heldAt :: heldAfter)).
  { repeat constructor; apply inRadius_Fin; lra. }
  assert (H3 : Forall (fun g => due heldDwell g = false) heldBefore).
  { repeat constructor. cbv [due heldDwell d_startTime s_now]. js_eval. }
  assert (H4 : due heldDwell heldAt = true).
  { cbv [due heldDwell heldAt d_startTime s_now]. js_eval. }
  pose proof (dwell_fires_once heldDwell heldBefore heldAfter heldAt H1 H2 H3 H4) as H.
  simpl in H. destruct H as [Ha [Hb _]]. split; assumption.
Defined.

(** The drift scenario: out of the radius at 500 ms, then held at the new
    place; nothing at 1000 and 1099 ms, the event at 1100 ms, 600 ms after
    the drift. *)
Lemma dwell_drift_example :
  map snd (snd (dwellRun heldDwell driftSamples))
  = [false; false; false; false; true].
Proof.
  unfold driftSamples, heldDwell. cbn [dwellRun].
  rewrite dwellStep_pending by dwell_side.
  rewrite dwellStep_exit by dwell_side.
  do 2 rewrite dwellStep_pending by dwell_side.
  rewrite dwellStep_fire by dwell_side.
  reflexivity.
Qed.

End DwellExamples.

(* ================================================================== *)
(** ** The calibration engine ([computeCalibration]) *)
(* ================================================================== *)

Section Calibration.

Variables sx ex sy ey : R.

Lemma computeCalibration_corners :
  computeCalibration (cornerSamples sx ex sy ey)
  = Some {| cal_x := mkAxis (Fin sx) (Fin ex); cal_y := mkAxis (Fin sy) (Fin ey) |}.
Proof.
  cbv [computeCalibration cornerSamples affineRaw x y].
  js_unfold.
  destruct (Req_dec_T 2 0); [lra |].
  destruct (Req_dec_T 0.8 0); [lra |].
  repeat f_equal; lra.
Qed.

(** The calibrated formula inverts the affine relation. *)
Lemma calibrated_inverts (a : Axis) (s e screen : R) :
  start a = Fin s -> end_ a = Fin e -> e <> s -> 0 <= screen <= 1 ->
  clamp01 (calibratedRatio a (Fin (affineRaw s e screen))) = Fin screen.
Proof.
  intros Hs He Hne Hb.
  rewrite (calibratedRatio_Fin a s e _ Hs He Hne).
  replace ((affineRaw s e screen - s) / (e - s)) with screen
    by (unfold affineRaw; field; lra).
  apply clamp01_id. assumption.
Qed.

Lemma mapPoint_corner (u v : R) :
  ex <> sx -> ey <> sy -> 0 <= u <= 1 -> 0 <= v <= 1 ->
  mapPoint (Some {| cal_x := mkAxis (Fin sx) (Fin ex); cal_y := mkAxis (Fin sy) (Fin ey) |})
           (mkPoint (Fin (affineRaw sx ex u)) (Fin (affineRaw sy ey v)))
  = mkPoint (Fin u) (Fin v).
Proof.
  intros Hx Hy Hu Hv. unfold mapPoint. rewrite mapToScreen_calibrated.
  cbn [fst snd x y cal_x cal_y].
  rewrite (calibrated_inverts _ sx ex u), (calibrated_inverts _ sy ey v);
    auto.
Qed.

Lemma closeTo_refl (tol u v : R) :
  0 < tol -> closeTo tol (mkPoint (Fin u) (Fin v)) (mkPoint (Fin u) (Fin v)).
Proof.
  intros Ht. exists u, v, u, v. repeat split; auto;
    replace (u - u) with 0 by lra; replace (v - v) with 0 by lra;
    rewrite Rabs_R0; assumption.
Qed.

End Calibration.

(** C8.  For a non-degenerate affine relation raw = start + screen (end -
    start) on each axis, the measurements taken at the four targets make
    [computeCalibration] return exactly the bounds of the relation, and the
    mapper sends each measurement back to its target (hence within 1e-3 of
    it). *)
Theorem calibration_round_trip (sx ex sy ey : R) :
  ex <> sx -> ey <> sy ->
  let config := {| cal_x := mkAxis (Fin sx) (Fin ex); cal_y := mkAxis (Fin sy) (Fin ey) |} in
  computeCalibration (cornerSamples sx ex sy ey) = Some config /\
  map (mapPoint (Some config)) (cornerSamples sx ex sy ey) = POINTS /\
  Forall2 (closeTo 0.001)
          (map (mapPoint (computeCalibration (cornerSamples sx ex sy ey)))
               (cornerSamples sx ex sy ey))
          POINTS.
Proof.
  intros Hx Hy config.
  assert (Hmap : map (mapPoint (Some config)) (cornerSamples sx ex sy ey) = POINTS).
  { unfold cornerSamples, POINTS. cbn [map]. subst config.
    rewrite !mapPoint_corner by (auto; lra). reflexivity. }
  split; [apply computeCalibration_corners |].
  split; [exact Hmap |].
  rewrite computeCalibration_corners. fold config. rewrite Hmap.
  unfold POINTS. repeat constructor; apply closeTo_refl; lra.
Qed.

Lemma calibration_round_trip_witness :
  computeCalibration (cornerSamples 0.3 0.7 0.35 0.65)
  = Some {| cal_x := mkAxis (Fin 0.3) (Fin 0.7); cal_y := mkAxis (Fin 0.35) (Fin 0.65) |} /\
  map (mapPoint (Some {| cal_x := mkAxis (Fin 0.3) (Fin 0.7);
                         cal_y := mkAxis (Fin 0.35) (Fin 0.65) |}))
      (cornerSamples 0.3 0.7 0.35 0.65) = POINTS.
Proof.
  assert (Hx : 0.7 <> 0.3) by lra.
  assert (Hy : 0.65 <> 0.35) by lra.
  destruct (calibration_round_trip 0.3 0.7 0.35 0.65 Hx Hy) as [H1 [H2 _]].
  split; assumption.
Defined.

(* ================================================================== *)
(** ** The gesture arbitrator ([processVisionResult] and the timeout) *)
(* ================================================================== *)

Section Arbitrator.

Lemma AppStatus_eqb_eq (a b : AppStatus) : AppStatus_eqb a b = true <-> a = b.
Proof. destruct a, b; simpl; split; intros; congruence. Qed.

Lemma dwellGesture_refs (s : App) (hit : option AppId) (didDwell : bool) :
  let s' := fst (dwellGesture s hit didDwell) in
  blinkCount s' = blinkCount s /\ doubleBlinkTimer s' = doubleBlinkTimer s /\
  firstBlinkHitRef s' = firstBlinkHitRef s /\ activeAppRef s' = activeAppRef s /\
  statusRef s' = statusRef s /\ status s' = status s.
Proof.
  unfold dwellGesture.
  destruct (didDwell && _); [destruct (activeAppRef s) eqn:E, hit |]; simpl;
    repeat split; auto.
Qed.

(** What a frame does to the blink count and to the captured target. *)
Lemma processVisionResult_blink (s : App) (now : Z) (ev : VisionEvent) :
  let s' := fst (processVisionResult s now ev) in
  let hit := hitTest (statusRef s) (activeAppRef s) (ev_cursor ev) in
  statusRef s' = statusRef s /\
  if ev_didBlink ev && negb (AppStatus_eqb (statusRef s) CALIBRATING) then
    blinkCount s' = S (blinkCount s) /\
    doubleBlinkTimer s' = Some (now + DOUBLE_BLINK_WINDOW)%Z /\
    firstBlinkHitRef s' = (if Nat.eqb (S (blinkCount s)) 1 then hit
                           else firstBlinkHitRef s)
  else
    blinkCount s' = blinkCount s /\
    doubleBlinkTimer s' = doubleBlinkTimer s /\
    firstBlinkHitRef s' = firstBlinkHitRef s.
Proof.
  intros s' hit. subst s'. unfold processVisionResult. fold hit.
  match goal with |- context [dwellGesture ?a ?b ?c] =>
    pose proof (dwellGesture_refs a b c) as H;
    destruct (dwellGesture a b c) as [s2 effs] end.
  cbn [fst] in H. destruct H as [Hc [Ht [Hf [_ [Hs _]]]]].
  cbn [blinkCount doubleBlinkTimer firstBlinkHitRef statusRef] in Hc, Ht, Hf, Hs.
  cbn [fst]. unfold blinkGesture. rewrite Hs.
  destruct (ev_didBlink ev && negb (AppStatus_eqb (statusRef s) CALIBRATING));
    cbn [statusRef blinkCount doubleBlinkTimer firstBlinkHitRef];
    rewrite ?Hc, ?Hf; auto.
Qed.

(** The timeout callback, by cases on what it reads. *)
Lemma doubleBlinkTimeout_cases (s : App) :
  let s' := fst (doubleBlinkTimeout s) in
  let effs := snd (doubleBlinkTimeout s) in
  blinkCount s' = 0%nat /\ doubleBlinkTimer s' = None /\
  firstBlinkHitRef s' = firstBlinkHitRef s /\
  (effs, activeApp s') =
    match blinkCount s, activeAppRef s, firstBlinkHitRef s with
    | 2%nat, Some _, _ => ([SetActiveApp None], None)
    | 1%nat, None, Some t => ([SetActiveApp (Some t); LoadAppContent t], Some t)
    | _, _, _ => ([], activeApp s)
    end.
Proof.
  unfold doubleBlinkTimeout.
  destruct (blinkCount s) as [| [| [| n]]]; cbn [Nat.eqb activeAppRef firstBlinkHitRef];
    destruct (activeAppRef s), (firstBlinkHitRef s); simpl; auto.
Qed.

(** C2.  When the debounce deadline fires, the callback resets the blink
    count to 0 and decides on the count it read: 2 with an active app
    closes the app; 1 with no active app and a captured target opens that
    target; every other combination (0, 3 or more, 2 with no active app,
    1 with an active app or without a captured target) opens and closes
    nothing. *)
Theorem timeout_decision (s : App) :
  let s' := fst (doubleBlinkTimeout s) in
  let effs := snd (doubleBlinkTimeout s) in
  blinkCount s' = 0%nat /\
  (blinkCount s = 2%nat -> activeAppRef s <> None ->
   effs = [SetActiveApp None] /\ activeApp s' = None) /\
  (forall t, blinkCount s = 1%nat -> activeAppRef s = None ->
             firstBlinkHitRef s = Some t ->
             effs = [SetActiveApp (Some t); LoadAppContent t] /\
             activeApp s' = Some t) /\
  (blinkCount s = 0%nat \/ (3 <= blinkCount s)%nat \/
   (blinkCount s = 2%nat /\ activeAppRef s = None) \/
   (blinkCount s = 1%nat /\ (activeAppRef s <> None \/ firstBlinkHitRef s = None)) ->
   effs = [] /\ activeApp s' = activeApp s).
Proof.
  intros s' effs.
  destruct (doubleBlinkTimeout_cases s) as [Hc [_ [_ He]]].
  fold s' effs in Hc, He.
  split; [exact Hc |].
  split; [| split].
  - intros H2 Ha. rewrite H2 in He.
    destruct (activeAppRef s); [| congruence].
    injection He as -> ->. auto.
  - intros t H1 Ha Hf. rewrite H1, Ha, Hf in He.
    injection He as -> ->. auto.
  - intros H.
    destruct (blinkCount s) as [| [| [| n]]];
      destruct (activeAppRef s), (firstBlinkHitRef s);
      try (injection He as -> ->; auto; fail);
      exfalso; destruct H as [H | [H | [[H H'] | [H [H' | H']]]]];
      try discriminate; try congruence; try lia.
Qed.

Lemma timeout_decision_witness :
  snd (doubleBlinkTimeout (appIn ACTIVE 2 None (Some mail) (Some 600%Z)))
    = [SetActiveApp None] /\
  activeApp (fst (doubleBlinkTimeout (appIn ACTIVE 2 None (Some mail) (Some 600%Z))))
    = None.
Proof.
  apply (proj1 (proj2 (timeout_decision (appIn ACTIVE 2 None (Some mail) (Some 600%Z))))).
  - reflexivity.
  - discriminate.
Defined.

(** The sequences of the specification: one blink opens the captured
    target, two blinks close the active app, three do nothing. *)
Lemma timeout_examples :
  snd (doubleBlinkTimeout (appIn ACTIVE 1 (Some weather) None (Some 600%Z)))
    = [SetActiveApp (Some weather); LoadAppContent weather] /\
  snd (doubleBlinkTimeout (appIn ACTIVE 2 None (Some mail) (Some 600%Z)))
    = [SetActiveApp None] /\
  snd (doubleBlinkTimeout (appIn ACTIVE 2 (Some weather) None (Some 600%Z))) = [] /\
  snd (doubleBlinkTimeout (appIn ACTIVE 3 (Some weather) None (Some 600%Z))) = [].
Proof. repeat split. Qed.

End Arbitrator.

Section FirstBlink.

(** While a sequence is open (count at least 1) and the timeout has not
    fired, no event changes the captured target, and the count does not
    decrease. *)
Lemma step_keeps_capture (s : App) (e : Event) :
  noTimer e -> (1 <= blinkCount s)%nat ->
  firstBlinkHitRef (fst (step s e)) = firstBlinkHitRef s /\
  (blinkCount s <= blinkCount (fst (step s e)))%nat.
Proof.
  intros Hn Hc. destruct e as [now ev | now |]; [| contradiction | simpl; auto].
  cbn [step].
  destruct (processVisionResult_blink s now ev) as [_ H].
  destruct (ev_didBlink ev && _).
  - destruct H as [H1 [_ H3]]. rewrite H1, H3.
    destruct (blinkCount s); [lia |]. simpl. auto.
  - destruct H as [H1 [_ H3]]. rewrite H1, H3. auto.
Qed.

Lemma run_keeps_capture (es : list Event) (s : App) :
  Forall noTimer es -> (1 <= blinkCount s)%nat ->
  firstBlinkHitRef (fst (run s es)) = firstBlinkHitRef s /\
  (blinkCount s <= blinkCount (fst (run s es)))%nat.
Proof.
  intros Hes. revert s. induction Hes as [| e es He _ IH]; intros s Hc.
  - simpl. auto.
  - cbn [run].
    destruct (step_keeps_capture s e He Hc) as [Hf Hle].
    destruct (step s e) as [s1 effs1]. cbn [fst] in Hf, Hle.
    destruct (IH s1 ltac:(lia)) as [Hf' Hle'].
    destruct (run s1 es) as [s2 effs2]. cbn [fst] in *.
    split; [congruence | lia].
Qed.

(** C9.  A frame changes the captured target only when its blink takes the
    count from 0 to 1, and then it stores the target hit at that frame.
    After such a first blink, whatever frames and renders follow before
    the timeout (cursor motion, further blinks, dwell), the captured
    target is still the one of the first blink when the timeout runs; the
    timeout does not change it, and an app it opens is that target. *)
Theorem first_blink_commits (s : App) (now1 : Z) (ev1 : VisionEvent)
    (es : list Event) :
  blinkCount s = 0%nat ->
  ev_didBlink ev1 = true ->
  statusRef s <> CALIBRATING ->
  Forall noTimer es ->
  let hit1 := hitTest (statusRef s) (activeAppRef s) (ev_cursor ev1) in
  let s1 := fst (processVisionResult s now1 ev1) in
  let s2 := fst (run s1 es) in
  (blinkCount s1 = 1%nat /\ firstBlinkHitRef s1 = hit1) /\
  firstBlinkHitRef s2 = hit1 /\
  firstBlinkHitRef (fst (doubleBlinkTimeout s2)) = hit1 /\
  (forall t, In (SetActiveApp (Some t)) (snd (doubleBlinkTimeout s2)) ->
             hit1 = Some t /\ blinkCount s2 = 1%nat) /\
  (forall (s0 : App) (now : Z) (ev : VisionEvent),
      firstBlinkHitRef (fst (processVisionResult s0 now ev)) <> firstBlinkHitRef s0 ->
      blinkCount s0 = 0%nat /\
      blinkCount (fst (processVisionResult s0 now ev)) = 1%nat).
Proof.
  intros Hc Hb Hs Hes hit1 s1 s2.
  assert (H1 : blinkCount s1 = 1%nat /\ firstBlinkHitRef s1 = hit1).
  { subst s1 hit1.
    destruct (processVisionResult_blink s now1 ev1) as [_ H].
    rewrite Hb in H.
    destruct (AppStatus_eqb (statusRef s) CALIBRATING) eqn:E;
      [apply AppStatus_eqb_eq in E; contradiction |].
    cbn [andb negb] in H. destruct H as [Hn [_ Hf]].
    rewrite Hc in Hn, Hf. auto. }
  destruct H1 as [Hn1 Hf1].
  assert (H2 : firstBlinkHitRef s2 = hit1).
  { subst s2. destruct (run_keeps_capture es s1 Hes ltac:(lia)) as [Hf _].
    congruence. }
  destruct (doubleBlinkTimeout_cases s2) as [_ [_ [Hf3 He]]].
  apply (f_equal fst) in He. cbn [fst] in He.
  split; [auto |]. split; [exact H2 |]. split; [congruence |]. split.
  - intros t Hin. rewrite He in Hin.
    destruct (blinkCount s2) as [| [| [| n]]] eqn:En;
      destruct (activeAppRef s2); destruct (firstBlinkHitRef s2) eqn:Ef;
      simpl in Hin; try contradiction;
      repeat (destruct Hin as [Hin | Hin]; try discriminate; try contradiction).
    injection Hin as ->. split; [congruence | reflexivity].
  - intros s0 now ev Hne.
    destruct (processVisionResult_blink s0 now ev) as [_ H'].
    destruct (ev_didBlink ev && _); destruct H' as [Hn [_ Hf]]; [| congruence].
    destruct (blinkCount s0); [auto |]. simpl in Hf. congruence.
Qed.

End FirstBlink.

Section GestureExamples.

Lemma hitTest_mail :
  hitTest ACTIVE None (mkPoint (Fin 0.4) (Fin 0.5)) = Some mail.
Proof. cbv [hitTest AppStatus_eqb truthy x y]. js_eval. Qed.

Lemma hitTest_weather :
  hitTest ACTIVE None (mkPoint (Fin 0.6) (Fin 0.5)) = Some weather.
Proof. cbv [hitTest AppStatus_eqb truthy x y]. js_eval. Qed.

Lemma first_blink_commits_witness :
  firstBlinkHitRef
    (fst (run (fst (processVisionResult (appIn ACTIVE 0 None None None) 0 blinkOnMail))
              [VisionResult 100 moveToWeather; Rendered]))
  = hitTest ACTIVE None (ev_cursor blinkOnMail).
Proof.
  assert (H1 : blinkCount (appIn ACTIVE 0 None None None) = 0%nat) by reflexivity.
  assert (H2 : ev_didBlink blinkOnMail = true) by reflexivity.
  assert (H3 : statusRef (appIn ACTIVE 0 None None None) <> CALIBRATING)
    by discriminate.
  assert (H4 : Forall noTimer [VisionResult 100 moveToWeather; Rendered])
    by (repeat constructor).
  exact (proj1 (proj2 (first_blink_commits _ 0%Z blinkOnMail _ H1 H2 H3 H4))).
Defined.

(** A single blink over the mail icon, the cursor then moved over the
    weather icon: when the timeout of the blink fires, mail is opened. *)
Lemma single_blink_opens_first_target :
  snd (run (appIn ACTIVE 0 None None None)
           [VisionResult 0 blinkOnMail; VisionResult 100 moveToWeather;
            Rendered; TimerFired 600])
  = [SetActiveApp (Some mail); LoadAppContent mail].
Proof.
  cbn -[hitTest]. rewrite hitTest_mail. reflexivity.
Qed.

End GestureExamples.

Section Calibrating.

(** C10.  While the status read by the callback is CALIBRATING, a frame,
    whatever blink and dwell events it reports, leaves the blink count,
    the pending timeout, the captured target and the active app as they
    were, and opens and closes nothing. *)
Theorem calibrating_frames_inert (s : App) (now : Z) (ev : VisionEvent) :
  statusRef s = CALIBRATING ->
  gestureState (fst (processVisionResult s now ev)) = gestureState s /\
  snd (processVisionResult s now ev) = [] /\
  statusRef (fst (processVisionResult s now ev)) = CALIBRATING.
Proof.
  intros Hs. unfold processVisionResult, dwellGesture, blinkGesture.
  cbn [statusRef]. rewrite Hs. cbn [AppStatus_eqb negb].
  rewrite !andb_false_r. cbn [fst snd statusRef]. auto.
Qed.

(** The same for a component whose status is CALIBRATING, once the render
    that follows the status change has refreshed the refs. *)
Lemma calibrating_after_render (s : App) (now : Z) (ev : VisionEvent) :
  status s = CALIBRATING ->
  gestureState (fst (processVisionResult (syncRefs s) now ev))
  = gestureState (syncRefs s) /\
  snd (processVisionResult (syncRefs s) now ev) = [].
Proof.
  intros Hs. unfold processVisionResult, dwellGesture, blinkGesture.
  cbn [statusRef syncRefs]. rewrite Hs. cbn [AppStatus_eqb negb].
  rewrite !andb_false_r. cbn [fst snd]. auto.
Qed.

Lemma calibrating_frames_inert_witness :
  gestureState (fst (processVisionResult (appIn CALIBRATING 1 (Some mail) None (Some 600%Z))
                                         100 blinkAndDwellOnMail))
  = gestureState (appIn CALIBRATING 1 (Some mail) None (Some 600%Z)) /\
  snd (processVisionResult (appIn CALIBRATING 1 (Some mail) None (Some 600%Z))
                           100 blinkAndDwellOnMail) = [].
Proof.
  destruct (calibrating_frames_inert (appIn CALIBRATING 1 (Some mail) None (Some 600%Z))
                                     100%Z blinkAndDwellOnMail eq_refl) as [H1 [H2 _]].
  split; assumption.
Defined.

End Calibrating.

(* ================================================================== *)
(** ** Further properties: mapper, filter and cursor *)
(* ================================================================== *)

Section MapperFurther.

Lemma uncalibrated_axis (r : R) :
  clamp01 (Fin (0.5 + (r - 0.5) * 2.5))
  = Fin (if Rle_dec r 0.3 then 0 else if Rle_dec 0.7 r then 1 else 2.5 * r - 0.75).
Proof.
  destruct (Rle_dec r 0.3); [| destruct (Rle_dec 0.7 r)]; js_eval.
Qed.

Lemma mapToScreen_uncalibrated_Fin (rx ry : R) :
  mapToScreen None (Fin rx) (Fin ry)
  = (clamp01 (Fin 1 - clamp01 (Fin (0.5 + (rx - 0.5) * 2.5)))%js,
     clamp01 (clamp01 (Fin (0.5 + (ry - 0.5) * 2.5)))).
Proof.
  cbv [mapToScreen]. unfold clamp01 at 2 4.
  cbv [JS.sub JS.add JS.neg JS.mul]. reflexivity.
Qed.

(** X1.  Without a profile the raw band [0.3, 0.7] is stretched linearly
    over the screen, mirrored on x, and raw values outside the band stick
    to the edges. *)
Theorem uncalibrated_mapping (rx ry : R) :
  let t := mapToScreen None (Fin rx) (Fin ry) in
  (rx <= 0.3 -> fst t = Fin 1) /\
  (0.7 <= rx -> fst t = Fin 0) /\
  (0.3 <= rx <= 0.7 -> fst t = Fin (1.75 - 2.5 * rx)) /\
  (ry <= 0.3 -> snd t = Fin 0) /\
  (0.7 <= ry -> snd t = Fin 1) /\
  (0.3 <= ry <= 0.7 -> snd t = Fin (2.5 * ry - 0.75)).
Proof.
  intros t. subst t. rewrite mapToScreen_uncalibrated_Fin.
  rewrite !uncalibrated_axis. cbn [fst snd].
  repeat split; intros H;
    repeat match goal with
           | |- context [Rle_dec ?a ?b] => destruct (Rle_dec a b); try lra
           end; js_eval.
Qed.

Lemma uncalibrated_mapping_witness :
  fst (mapToScreen None (Fin 0.4) (Fin 0.6)) = Fin (1.75 - 2.5 * 0.4) /\
  snd (mapToScreen None (Fin 0.4) (Fin 0.6)) = Fin (2.5 * 0.6 - 0.75).
Proof.
  destruct (uncalibrated_mapping 0.4 0.6) as [_ [_ [Hx [_ [_ Hy]]]]].
  split; [apply Hx | apply Hy]; lra.
Defined.

(** X2.  The preview of the calibration screen shows, in percent, the
    point the uncalibrated mapper computes, for every raw point. *)
Theorem preview_matches_mapper (raw : Point) :
  getPreviewPosition raw
  = mkPoint (fst (mapToScreen None (x raw) (y raw)) * Fin 100)%js
            (snd (mapToScreen None (x raw) (y raw)) * Fin 100)%js.
Proof.
  destruct raw as [[rx | | |] [ry | | |]];
    cbv [getPreviewPosition mapToScreen x y fst snd]; js_eval.
Qed.

End MapperFurther.

Section FilterFurther.

Lemma contraction_axis (c t g : R) :
  0.02 <= g <= 0.5 ->
  0.5 * Rabs (t - c) <= Rabs (t - (c + (t - c) * g)) <= 0.98 * Rabs (t - c)
  /\ 0 <= (t - c) * (t - (c + (t - c) * g)).
Proof.
  intros Hg.
  replace (t - (c + (t - c) * g)) with ((t - c) * (1 - g)) by ring.
  rewrite Rabs_mult, (Rabs_pos_eq (1 - g)) by lra.
  pose proof (Rabs_pos (t - c)) as Ha.
  split; [split; nra |].
  replace ((t - c) * ((t - c) * (1 - g))) with ((t - c) * (t - c) * (1 - g)) by ring.
  pose proof (Rle_0_sqr (t - c)) as Hs. unfold Rsqr in Hs. nra.
Qed.

(** X3.  Towards a finite target the filter never overshoots and never
    stalls: on each axis the new cursor is on the same side of the target
    as the old one, and its distance to the target is between 50 % and
    98 % of the old distance. *)
Theorem filter_contracts (cx cy tx ty : R) :
  exists cx' cy',
    smoothCursor (Fin cx) (Fin cy) (Fin tx) (Fin ty) = (Fin cx', Fin cy') /\
    0.5 * Rabs (tx - cx) <= Rabs (tx - cx') <= 0.98 * Rabs (tx - cx) /\
    0 <= (tx - cx) * (tx - cx') /\
    0.5 * Rabs (ty - cy) <= Rabs (ty - cy') <= 0.98 * Rabs (ty - cy) /\
    0 <= (ty - cy) * (ty - cy').
Proof.
  rewrite smoothCursor_Fin.
  pose proof (gain_bounds (euclid (tx - cx) (ty - cy))) as Hg.
  set (g := gain _) in *.
  exists (cx + (tx - cx) * g), (cy + (ty - cy) * g).
  destruct (contraction_axis cx tx g Hg) as [Hx1 Hx2].
  destruct (contraction_axis cy ty g Hg) as [Hy1 Hy2].
  auto.
Qed.

Lemma runFrames_cursor (frames : list Frame) (vs : VisionService) :
  usable (calibration vs) ->
  Forall finiteNose frames ->
  onScreen (cursorX vs) /\ onScreen (cursorY vs) ->
  let r := runFrames vs frames in
  (onScreen (cursorX (fst r)) /\ onScreen (cursorY (fst r))) /\
  Forall (fun e => onScreen (x (ev_cursor e)) /\ onScreen (y (ev_cursor e))) (snd r).
Proof.
  intros Hu Hf. revert vs Hu.
  induction Hf as [| fr frames Hfr _ IH]; intros vs Hu Hc; cbn [runFrames].
  - cbn. auto.
  - pose proof (cursor_onScreen_preserved vs fr Hu Hfr Hc) as Hc1.
    assert (Hcal : calibration (fst (predictWebcam vs fr)) = calibration vs).
    { destruct (faceLandmarks fr) as [lm |] eqn:Hlm.
      - apply (predictWebcam_cursor vs fr lm Hlm).
      - rewrite predictWebcam_no_face by assumption. reflexivity. }
    assert (Hev : forall e, snd (predictWebcam vs fr) = Some e ->
                            ev_cursor e = mkPoint (cursorX (fst (predictWebcam vs fr)))
                                                  (cursorY (fst (predictWebcam vs fr)))).
    { intros e He. unfold predictWebcam in *.
      destruct (faceLandmarks fr) as [lm |]; [| discriminate].
      destruct (mapToScreen _ _ _) as [tx ty].
      destruct (smoothCursor _ _ tx ty) as [cx cy].
      destruct (blinkStep _ _ _) as [bst didBlink].
      destruct (dwellStep _ _ _ _) as [[d progress] didDwell].
      cbn in *. injection He as <-. reflexivity. }
    destruct (predictWebcam vs fr) as [vs1 ev]. cbn [fst snd] in *.
    rewrite <- Hcal in Hu.
    specialize (IH vs1 Hu Hc1). cbn zeta in IH.
    destruct (runFrames vs1 frames) as [vs2 evs]. cbn [fst snd] in *.
    destruct IH as [IH1 IH2]. split; [exact IH1 |].
    destruct ev as [e |]; [| exact IH2].
    constructor; [| exact IH2].
    rewrite (Hev e eq_refl). cbn [x y]. exact Hc1.
Qed.

(** X4.  With no profile, or with a profile whose bounds are finite and
    whose axes have [end] different from [start], a service fed frames
    whose nose landmark is finite (or that have no face) keeps its cursor
    in the unit square, from the default position on, and so is the cursor
    of every event it emits. *)
Theorem cursor_stays_on_screen (cal : option CalibrationConfig)
    (frames : list Frame) :
  usable cal ->
  Forall finiteNose frames ->
  let r := runFrames (newVisionService cal) frames in
  onScreen (cursorX (fst r)) /\ onScreen (cursorY (fst r)) /\
  Forall (fun e => onScreen (x (ev_cursor e)) /\ onScreen (y (ev_cursor e))) (snd r).
Proof.
  intros Hu Hf r.
  assert (H0 : onScreen (cursorX (newVisionService cal)) /\
               onScreen (cursorY (newVisionService cal))).
  { split; exists 0.5; (split; [reflexivity | lra]). }
  destruct (runFrames_cursor frames (newVisionService cal) Hu Hf H0) as [[H1 H2] H3].
  auto.
Qed.

End FilterFurther.

Lemma cursor_stays_on_screen_witness :
  onScreen (cursorX (fst (runFrames (newVisionService None)
                                    [stillFrame; mkFrame None (Fin 16) (Fin 16)]))).
Proof.
  assert (Hf : Forall finiteNose [stillFrame; mkFrame None (Fin 16) (Fin 16)]).
  { repeat constructor; intros lm Hlm.
    - injection Hlm as <-. exists 0.5, 0.5. reflexivity.
    - discriminate Hlm. }
  exact (proj1 (cursor_stays_on_screen None _ usable_none Hf)).
Defined.

(* ================================================================== *)
(** ** Further properties: the calibration engine *)
(* ================================================================== *)

Section CalibrationFurther.

Variables tlx tly trx try_ brx bry blx bly : R.

Let corners : list Point :=
  [ mkPoint (Fin tlx) (Fin tly); mkPoint (Fin trx) (Fin try_);
    mkPoint (Fin brx) (Fin bry); mkPoint (Fin blx) (Fin bly) ].
Let xl := (tlx + blx) / 2.
Let xr := (trx + brx) / 2.
Let yt := (tly + try_) / 2.
Let yb := (bly + bry) / 2.

Lemma computeCalibration_Fin :
  computeCalibration corners
  = Some {| cal_x := mkAxis (Fin (xl - (xr - xl) / 8)) (Fin (xr + (xr - xl) / 8));
            cal_y := mkAxis (Fin (yt - (yb - yt) / 8)) (Fin (yb + (yb - yt) / 8)) |}.
Proof.
  subst corners xl xr yt yb.
  cbv [computeCalibration x y]. js_unfold.
  destruct (Req_dec_T 2 0); [lra |].
  destruct (Req_dec_T 0.8 0); [lra |].
  do 4 f_equal; lra.
Qed.

(** X5.  Whatever four finite measurements come in, the profile is made of
    finite bounds, each axis 1.25 times as wide as the distance between the
    two averaged sides; an axis has zero width exactly when its two averaged
    sides coincide, and the profile is usable by the mapper exactly when
    neither axis has. *)
Theorem computeCalibration_width :
  exists sx ex sy ey,
    computeCalibration corners
    = Some {| cal_x := mkAxis (Fin sx) (Fin ex); cal_y := mkAxis (Fin sy) (Fin ey) |} /\
    ex - sx = 1.25 * (xr - xl) /\ ey - sy = 1.25 * (yb - yt) /\
    (zeroWidth (mkAxis (Fin sx) (Fin ex)) <-> tlx + blx = trx + brx) /\
    (zeroWidth (mkAxis (Fin sy) (Fin ey)) <-> tly + try_ = bly + bry) /\
    (usable (computeCalibration corners)
     <-> tlx + blx <> trx + brx /\ tly + try_ <> bly + bry).
Proof.
  rewrite computeCalibration_Fin.
  do 4 eexists. split; [reflexivity |].
  subst xl xr yt yb.
  split; [lra |]. split; [lra |].
  split; [| split].
  - split.
    + intros [s [Hs He]]. cbn in Hs, He. injection Hs as Hs. injection He as He. lra.
    + intros H. eexists. cbn. split; [reflexivity |]. f_equal. lra.
  - split.
    + intros [s [Hs He]]. cbn in Hs, He. injection Hs as Hs. injection He as He. lra.
    + intros H. eexists. cbn. split; [reflexivity |]. f_equal. lra.
  - split.
    + intros H. inversion H as [| c sx ex sy ey Hsx Hex Hx Hsy Hey Hy]; subst.
      cbn in Hsx, Hex, Hsy, Hey.
      injection Hsx as Hsx. injection Hex as Hex.
      injection Hsy as Hsy. injection Hey as Hey. split; lra.
    + intros [Hx Hy]. eapply usable_some; cbn; try reflexivity; lra.
Qed.

(** X6.  When neither axis is degenerate, the mapper with the computed
    profile sends the averaged left and top raw values to 0.1 and the
    averaged right and bottom raw values to 0.9, whether or not the four
    measurements form a rectangle. *)
Theorem computeCalibration_anchors :
  tlx + blx <> trx + brx -> tly + try_ <> bly + bry ->
  mapPoint (computeCalibration corners) (mkPoint (Fin xl) (Fin yt))
  = mkPoint (Fin 0.1) (Fin 0.1) /\
  mapPoint (computeCalibration corners) (mkPoint (Fin xr) (Fin yb))
  = mkPoint (Fin 0.9) (Fin 0.9).
Proof.
  intros Hx Hy. rewrite computeCalibration_Fin.
  set (sx := xl - (xr - xl) / 8). set (ex := xr + (xr - xl) / 8).
  set (sy := yt - (yb - yt) / 8). set (ey := yb + (yb - yt) / 8).
  assert (Hex : ex <> sx) by (subst ex sx xl xr; lra).
  assert (Hey : ey <> sy) by (subst ey sy yt yb; lra).
  replace xl with (affineRaw sx ex 0.1) by (unfold affineRaw; subst sx ex; lra).
  replace xr with (affineRaw sx ex 0.9) by (unfold affineRaw; subst sx ex; lra).
  replace yt with (affineRaw sy ey 0.1) by (unfold affineRaw; subst sy ey; lra).
  replace yb with (affineRaw sy ey 0.9) by (unfold affineRaw; subst sy ey; lra).
  split; apply mapPoint_corner; auto; lra.
Qed.

End CalibrationFurther.

Lemma computeCalibration_anchors_witness :
  mapPoint (computeCalibration
              [ mkPoint (Fin 0.40) (Fin 0.42); mkPoint (Fin 0.60) (Fin 0.40);
                mkPoint (Fin 0.62) (Fin 0.60); mkPoint (Fin 0.38) (Fin 0.58) ])
           (mkPoint (Fin ((0.40 + 0.38) / 2)) (Fin ((0.42 + 0.40) / 2)))
  = mkPoint (Fin 0.1) (Fin 0.1).
Proof.
  assert (Hx : 0.40 + 0.38 <> 0.60 + 0.62) by lra.
  assert (Hy : 0.42 + 0.40 <> 0.58 + 0.60) by lra.
  exact (proj1 (computeCalibration_anchors 0.40 0.42 0.60 0.40 0.62 0.60 0.38 0.58 Hx Hy)).
Defined.

(* ================================================================== *)
(** ** Further properties: the capture sequence of the calibration screen *)
(* ================================================================== *)

Section CaptureSequence.

Import CalibrationScreen.

(** The share of one frame in the capture duration is 1.6 percent. *)
Lemma increment_value :
  (Fin 100 / (CAPTURE_DURATION / Fin 16))%js = Fin 1.6.
Proof. unfold CAPTURE_DURATION. js_eval. Qed.

Lemma capture_running (st : nat) (ms : list Point) (p : R) (sm : list Point) (h : Point) :
  p + 1.6 < 100 ->
  capture (capturingAt st ms p sm) (Some h)
  = (capturingAt st ms (p + 1.6) (sm ++ [h]), None).
Proof.
  intros Hp. unfold capture, capturingAt.
  cbn [isCapturing negb progressRef samplesRef step measurements settlePending].
  rewrite increment_value.
  replace (JS.min (Fin 100) (Fin p + Fin 1.6)%js) with (Fin (p + 1.6)) by js_eval.
  replace (Fin (p + 1.6) >=? Fin 100)%js with false by js_eval.
  reflexivity.
Qed.

Lemma capture_full (st : nat) (ms : list Point) (p : R) (sm : list Point) (h : Point) :
  100 <= p + 1.6 ->
  capture (capturingAt st ms p sm) (Some h)
  = finishStep (mkState st (Fin 100) false ms (Fin 100) (sm ++ [h]) false).
Proof.
  intros Hp. unfold capture, capturingAt.
  cbn [isCapturing negb progressRef samplesRef step measurements settlePending].
  rewrite increment_value.
  replace (JS.min (Fin 100) (Fin p + Fin 1.6)%js) with (Fin 100) by js_eval.
  replace (Fin 100 >=? Fin 100)%js with true by js_eval.
  reflexivity.
Qed.

(** While it waits for the settle timeout the screen ignores the heads. *)
Lemma session_waiting (st : nat) (ms : list Point) (heads : list (option Point)) :
  session (waiting st ms) (headInputs heads) = (waiting st ms, None).
Proof.
  induction heads as [| h heads IH]; [reflexivity |].
  cbn [headInputs map session react]. fold (headInputs heads).
  replace (capture (waiting st ms) h) with (waiting st ms, @None CalibrationConfig)
    by (destruct h; reflexivity).
  rewrite IH. reflexivity.
Qed.

Lemma session_capturing (heads : list Point) (st : nat) (ms : list Point)
    (p : R) (sm : list Point) :
  p + 1.6 * INR (length heads) < 100 ->
  session (capturingAt st ms p sm) (headInputs (map Some heads))
  = (capturingAt st ms (p + 1.6 * INR (length heads)) (sm ++ heads), None).
Proof.
  revert p sm. induction heads as [| h heads IH]; intros p sm Hp.
  - cbn [map headInputs session length INR]. rewrite app_nil_r.
    replace (p + 1.6 * 0) with p by lra. reflexivity.
  - cbn [length] in Hp. rewrite S_INR in Hp.
    pose proof (pos_INR (length heads)) as Hn.
    cbn [map headInputs session react]. fold (headInputs (map Some heads)).
    rewrite capture_running by lra.
    rewrite IH by lra.
    cbn [length]. rewrite S_INR, <- app_assoc. cbn [app].
    replace (p + 1.6 * (INR (length heads) + 1))
      with (p + 1.6 + 1.6 * INR (length heads)) by lra.
    reflexivity.
Qed.

Lemma session_app (a b : list Input) (s : State) :
  session s (a ++ b)
  = (fst (session (fst (session s a)) b),
     match snd (session (fst (session s a)) b) with
     | Some c => Some c
     | None => snd (session s a)
     end).
Proof.
  revert s. induction a as [| i a IH]; intros s; cbn [app session].
  - cbn [fst snd]. destruct (session s b) as [s2 [c |]]; reflexivity.
  - destruct (react s i) as [s1 o1]. rewrite IH.
    destruct (session s1 a) as [s2 o2]. cbn [fst snd].
    destruct (session s2 b) as [s3 [c |]]; cbn [fst snd]; try reflexivity.
Qed.

(** From the settle timeout to the frame that fills the progress. *)
Lemma session_step (st : nat) (ms : list Point) (ignored : list (option Point))
    (heads : list Point) :
  length heads = 63%nat ->
  session (waiting st ms) (headInputs ignored ++ stepInputs heads)
  = finishStep (mkState st (Fin 100) false ms (Fin 100) heads false).
Proof.
  intros Hlen.
  assert (Hne : heads <> []) by (intros ->; discriminate Hlen).
  destruct (exists_last Hne) as [front [final Hh]]. subst heads.
  rewrite length_app in Hlen. cbn [length] in Hlen.
  assert (Hf : length front = 62%nat) by lia.
  rewrite session_app, session_waiting. cbn [fst snd].
  unfold stepInputs. rewrite map_app. cbn [map].
  change (Settled :: map (fun h => RawHead (Some h)) front ++ [RawHead (Some final)])
    with ([Settled] ++ map (fun h => RawHead (Some h)) front ++ [RawHead (Some final)]).
  rewrite session_app. cbn [session react settled waiting settlePending fst snd
                             step progress measurements progressRef samplesRef].
  fold (capturingAt st ms 0 []).
  rewrite session_app.
  replace (map (fun h => RawHead (Some h)) front) with (headInputs (map Some front))
    by (unfold headInputs; rewrite map_map; reflexivity).
  assert (H62 : INR (length front) = 62) by (rewrite Hf, INR_IZR_INZ; reflexivity).
  rewrite session_capturing by (rewrite H62; lra).
  cbn [fst snd session react app]. rewrite H62.
  rewrite capture_full by lra.
  destruct (finishStep _) as [s' [c |]]; reflexivity.
Qed.

End CaptureSequence.

Section CaptureClaims.

Import CalibrationScreen.

Lemma session_partial (st : nat) (ms : list Point) (ignored : list (option Point))
    (heads : list Point) :
  (length heads <= 62)%nat ->
  session (waiting st ms) (headInputs ignored ++ stepInputs heads)
  = (capturingAt st ms (1.6 * INR (length heads)) heads, None).
Proof.
  intros Hlen.
  rewrite session_app, session_waiting. cbn [fst snd].
  unfold stepInputs.
  change (Settled :: map (fun h => RawHead (Some h)) heads)
    with ([Settled] ++ map (fun h => RawHead (Some h)) heads).
  rewrite session_app. cbn [session react settled waiting settlePending fst snd
                             step progress measurements progressRef samplesRef].
  fold (capturingAt st ms 0 []).
  replace (map (fun h => RawHead (Some h)) heads) with (headInputs (map Some heads))
    by (unfold headInputs; rewrite map_map; reflexivity).
  assert (H62 : INR (length heads) <= 62).
  { apply le_INR in Hlen. rewrite (INR_IZR_INZ 62) in Hlen. exact Hlen. }
  rewrite session_capturing by lra.
  cbn [fst snd app].
  replace (0 + 1.6 * INR (length heads)) with (1.6 * INR (length heads)) by lra.
  reflexivity.
Qed.

Lemma finishStep_advance (st : nat) (ms heads : list Point) :
  heads <> [] -> (st < 3)%nat ->
  finishStep (mkState st (Fin 100) false ms (Fin 100) heads false)
  = (waiting (S st) (ms ++ [average heads]), None).
Proof.
  intros Hne Hst. unfold finishStep. cbn [samplesRef step measurements POINTS length].
  destruct heads as [| h heads]; [congruence |].
  replace (Nat.ltb st (4 - 1)) with true
    by (symmetry; apply Nat.ltb_lt; lia).
  reflexivity.
Qed.

Lemma finishStep_complete (st : nat) (ms heads : list Point) :
  heads <> [] -> (3 <= st)%nat ->
  snd (finishStep (mkState st (Fin 100) false ms (Fin 100) heads false))
  = computeCalibration (ms ++ [average heads]).
Proof.
  intros Hne Hst. unfold finishStep. cbn [samplesRef step measurements POINTS length].
  destruct heads as [| h heads]; [congruence |].
  replace (Nat.ltb st (4 - 1)) with false
    by (symmetry; apply Nat.ltb_ge; lia).
  reflexivity.
Qed.

Lemma length63_nonempty (heads : list Point) : length heads = 63%nat -> heads <> [].
Proof. intros H ->. discriminate H. Qed.

(** X7.  A step of the calibration measures the average of exactly 63
    heads, one per run of the capture effect.  Heads that arrive before the
    settle timeout are ignored; after it, up to 62 heads leave the screen
    capturing, at 1.6 percent of progress per head, with nothing measured;
    the 63rd ends the step, and the average of the 63 becomes the
    measurement: the next step starts when the step is not the last,
    [computeCalibration] runs on the measurements when it is. *)
Theorem samples_per_step (st : nat) (ms : list Point)
    (ignored : list (option Point)) (heads : list Point) :
  let run := session (waiting st ms) (headInputs ignored ++ stepInputs heads) in
  ((length heads <= 62)%nat ->
   run = (capturingAt st ms (1.6 * INR (length heads)) heads, None)) /\
  (length heads = 63%nat -> (st < 3)%nat ->
   run = (waiting (S st) (ms ++ [average heads]), None)) /\
  (length heads = 63%nat -> (3 <= st)%nat ->
   snd run = computeCalibration (ms ++ [average heads])).
Proof.
  intros run. subst run. split; [apply session_partial |]. split.
  - intros Hlen Hst. rewrite session_step by assumption.
    apply finishStep_advance; auto using length63_nonempty.
  - intros Hlen Hst. rewrite session_step by assumption.
    apply finishStep_complete; auto using length63_nonempty.
Qed.

Lemma samples_per_step_witness :
  session (waiting 0 []) (headInputs [None] ++ stepInputs [mkPoint (Fin 0.4) (Fin 0.4)])
  = (capturingAt 0 [] (1.6 * INR 1) [mkPoint (Fin 0.4) (Fin 0.4)], None).
Proof.
  apply (proj1 (samples_per_step 0 [] [None] [mkPoint (Fin 0.4) (Fin 0.4)])).
  cbn [length]. lia.
Defined.

(** X8.  A whole calibration: mounted, the screen fed four rounds of the
    settle timeout and 63 heads calls [onComplete] once the last head is
    in, with the profile [computeCalibration] makes of the four averages,
    taken in the order of the targets. *)
Theorem calibration_session (h1 h2 h3 h4 : list Point) :
  length h1 = 63%nat -> length h2 = 63%nat ->
  length h3 = 63%nat -> length h4 = 63%nat ->
  snd (session (startStep initial)
               (stepInputs h1 ++ stepInputs h2 ++ stepInputs h3 ++ stepInputs h4))
  = computeCalibration [average h1; average h2; average h3; average h4].
Proof.
  intros L1 L2 L3 L4.
  change (startStep initial) with (waiting 0 []).
  pose proof (fun st ms hs => session_step st ms [] hs) as Hstep.
  cbn [headInputs map app] in Hstep.
  rewrite session_app, Hstep, finishStep_advance by auto using length63_nonempty.
  cbn [fst snd app].
  rewrite session_app, Hstep, finishStep_advance by auto using length63_nonempty.
  cbn [fst snd app].
  rewrite session_app, Hstep, finishStep_advance by auto using length63_nonempty.
  cbn [fst snd app].
  rewrite Hstep by assumption.
  rewrite finishStep_complete by auto using length63_nonempty.
  destruct (computeCalibration _); reflexivity.
Qed.

Lemma calibration_session_witness :
  snd (session (startStep initial)
               (stepInputs (repeat (mkPoint (Fin 0.4) (Fin 0.4)) 63)
                ++ stepInputs (repeat (mkPoint (Fin 0.6) (Fin 0.4)) 63)
                ++ stepInputs (repeat (mkPoint (Fin 0.6) (Fin 0.6)) 63)
                ++ stepInputs (repeat (mkPoint (Fin 0.4) (Fin 0.6)) 63)))
  = computeCalibration
      [ average (repeat (mkPoint (Fin 0.4) (Fin 0.4)) 63);
        average (repeat (mkPoint (Fin 0.6) (Fin 0.4)) 63);
        average (repeat (mkPoint (Fin 0.6) (Fin 0.6)) 63);
        average (repeat (mkPoint (Fin 0.4) (Fin 0.6)) 63) ].
Proof.
  apply calibration_session; apply repeat_length.
Defined.

End CaptureClaims.

Section Averages.

Import CalibrationScreen.

(** The running sum of finite coordinates within [lo, hi]. *)
Lemma sum_bounds (f : Point -> number) (lo hi : R) (l : list Point) (a : R) :
  Forall (fun p => exists r, f p = Fin r /\ lo <= r <= hi) l ->
  exists s, fold_left (fun sum p => sum + f p)%js l (Fin a) = Fin s /\
            a + INR (length l) * lo <= s <= a + INR (length l) * hi.
Proof.
  intros H. revert a. induction H as [| p l [r [Hr Hb]] _ IH]; intros a.
  - exists a. cbn. split; [reflexivity | lra].
  - cbn [fold_left]. rewrite Hr. cbn [JS.add].
    destruct (IH (a + r)) as [s [Hs Hsb]]. exists s. split; [exact Hs |].
    cbn [length]. rewrite S_INR. lra.
Qed.

Lemma average_bounds (f : Point -> number) (lo hi : R) (l : list Point) :
  l <> [] ->
  Forall (fun p => exists r, f p = Fin r /\ lo <= r <= hi) l ->
  exists m, (fold_left (fun sum p => sum + f p) l (Fin 0)
             / Fin (INR (length l)))%js = Fin m /\ lo <= m <= hi.
Proof.
  intros Hne H.
  destruct (sum_bounds f lo hi l 0 H) as [s [Hs Hb]]. rewrite Hs.
  assert (Hn : 0 < INR (length l)).
  { apply lt_0_INR. destruct l; [congruence | cbn; lia]. }
  exists (s / INR (length l)). split.
  - cbv [JS.div JS.Reqb]. destruct (Req_dec_T (INR (length l)) 0); [lra | reflexivity].
  - set (n := INR (length l)) in *.
    assert (Hq : s = (s / n) * n) by (field; lra).
    set (q := s / n) in *. split; nra.
Qed.

(** X9.  The measurement of a step lies within the bounding box of its
    samples: when every sample is finite with [x] in [xlo, xhi] and [y] in
    [ylo, yhi], so is the average. *)
Theorem average_in_box (xlo xhi ylo yhi : R) (samples : list Point) :
  samples <> [] ->
  Forall (inBox xlo xhi ylo yhi) samples ->
  inBox xlo xhi ylo yhi (average samples).
Proof.
  intros Hne H.
  destruct (average_bounds x xlo xhi samples Hne) as [mx [Hx Hbx]].
  { eapply Forall_impl; [| exact H].
    intros p [px [py [-> [Hpx _]]]]. exists px. auto. }
  destruct (average_bounds y ylo yhi samples Hne) as [my [Hy Hby]].
  { eapply Forall_impl; [| exact H].
    intros p [px [py [-> [_ Hpy]]]]. exists py. auto. }
  exists mx, my. unfold average, averageX, averageY. rewrite Hx, Hy. auto.
Qed.

Lemma average_in_box_witness :
  inBox 0.4 0.5 0.4 0.6
        (average [mkPoint (Fin 0.4) (Fin 0.6); mkPoint (Fin 0.5) (Fin 0.4)]).
Proof.
  apply average_in_box; [discriminate |].
  repeat constructor; do 2 eexists; (split; [reflexivity | lra]).
Defined.

(** Without samples [finishStep] measures nothing and calls nothing. *)
Lemma finishStep_no_samples (s : State) :
  samplesRef s = [] -> finishStep s = (s, None).
Proof. intros H. unfold finishStep. rewrite H. reflexivity. Qed.

End Averages.

(* ================================================================== *)
(** ** Further properties: blink and dwell detectors *)
(* ================================================================== *)

Section BlinkFurther.

Lemma blinkStep_event (st : number) (b : bool) (now : number) :
  snd (blinkStep st b now) = true ->
  b = false /\ fst (blinkStep st b now) = Fin (-1).
Proof.
  unfold blinkStep. destruct b.
  - destruct (st === Fin (-1))%js; cbn; discriminate.
  - destruct (st === Fin (-1))%js; cbn; [discriminate | auto].
Qed.

Lemma blinkStep_idle (b : bool) (now : number) :
  snd (blinkStep (Fin (-1)) b now) = false.
Proof. unfold blinkStep. destruct b; js_eval. Qed.

Lemma runFrames_blinks (frames : list Frame) (vs : VisionService) :
  let evs := snd (runFrames vs frames) in
  noAdjacentBlinks evs /\
  Forall (fun e => ev_didBlink e = true -> ev_isBlinking e = false) evs /\
  (blinkStartTime vs = Fin (-1) ->
   match evs with e :: _ => ev_didBlink e = false | [] => True end).
Proof.
  revert vs. induction frames as [| fr frames IH]; intros vs; cbn [runFrames].
  - cbn. auto.
  - destruct (faceLandmarks fr) as [lm |] eqn:Hlm.
    + destruct (predictWebcam_blink vs fr lm Hlm) as [e [He [_ Hb]]].
      destruct (predictWebcam vs fr) as [vs1 ev]. cbn [fst snd] in *. subst ev.
      specialize (IH vs1). cbn zeta in IH.
      destruct (runFrames vs1 frames) as [vs2 evs]. cbn [fst snd] in *.
      destruct IH as [IH1 [IH2 IH3]].
      assert (Hs : snd (blinkStep (blinkStartTime vs) (ev_isBlinking e) (nowBlink fr))
                   = ev_didBlink e) by (rewrite <- Hb; reflexivity).
      assert (Hf : fst (blinkStep (blinkStartTime vs) (ev_isBlinking e) (nowBlink fr))
                   = blinkStartTime vs1) by (rewrite <- Hb; reflexivity).
      split; [| split].
      * cbn [noAdjacentBlinks]. split; [| exact IH1].
        destruct evs as [| e2 evs]; [exact I |].
        intros Hd. apply IH3. rewrite <- Hf.
        rewrite <- Hs in Hd. apply (blinkStep_event _ _ _ Hd).
      * constructor; [| exact IH2].
        intros Hd. rewrite <- Hs in Hd. apply (blinkStep_event _ _ _ Hd).
      * intros H0. rewrite <- Hs, H0. apply blinkStep_idle.
    + rewrite predictWebcam_no_face by assumption.
      specialize (IH vs). cbn zeta in IH.
      destruct (runFrames vs frames) as [vs2 evs]. cbn [fst snd] in *. exact IH.
Qed.

(** X10.  Over any frames, from any state of the service, a blink is
    reported only on a frame where the eyes are open, and never on two
    consecutive events: each closure yields at most one blink. *)
Theorem blinks_are_separated (vs : VisionService) (frames : list Frame) :
  noAdjacentBlinks (snd (runFrames vs frames)) /\
  Forall (fun e => ev_didBlink e = true -> ev_isBlinking e = false)
         (snd (runFrames vs frames)).
Proof.
  destruct (runFrames_blinks frames vs) as [H1 [H2 _]]. auto.
Qed.

End BlinkFurther.

Section DwellFurther.

Lemma dwellDist_self (cx cy : number) :
  (dwellDist (mkPoint cx cy) cx cy >? DWELL_RADIUS)%js = false.
Proof.
  destruct cx as [rx | | |], cy as [ry | | |];
    cbv [dwellDist x y JS.pow2 JS.sub JS.add JS.neg JS.mul JS.signedInf];
    try reflexivity.
  replace ((rx + - rx) * (rx + - rx) + (ry + - ry) * (ry + - ry)) with 0 by ring.
  cbv [JS.sqrt JS.Rltb]. destruct (Rlt_dec 0 0); [lra |].
  rewrite sqrt_0. js_eval.
Qed.

(** X11.  After every frame the dwell anchor is within the radius of the
    cursor of that frame (the exit test fails on it), whatever the numbers
    involved: the anchor either stayed, with the cursor near it, or moved
    onto the cursor. *)
Theorem dwell_anchor_follows (d : DwellState) (cx cy now : number) :
  (dwellDist (d_anchor (fst (fst (dwellStep d cx cy now)))) cx cy >? DWELL_RADIUS)%js
  = false.
Proof.
  unfold dwellStep.
  destruct (dwellDist (d_anchor d) cx cy >? DWELL_RADIUS)%js eqn:E.
  - cbn [fst d_anchor]. apply dwellDist_self.
  - destruct (negb (d_triggered d)); [destruct (_ >=? _)%js |]; cbn [fst d_anchor];
      exact E.
Qed.

(** X12.  With a timer started at [t0] and a clock at [t >= t0], the
    progress reported by the dwell step is a finite number in [0, 1): the
    frame at which the duration has elapsed reports the event and progress
    0, never a full progress; and an event is reported exactly when the
    cursor is within the radius, the detector armed and the duration
    elapsed. *)
Theorem dwell_progress_range (d : DwellState) (cx cy : number) (t0 t : R) :
  d_startTime d = Fin t0 -> t0 <= t ->
  let out := dwellStep d cx cy (Fin t) in
  (exists r, snd (fst out) = Fin r /\ 0 <= r < 1) /\
  (snd out = true <->
   (dwellDist (d_anchor d) cx cy >? DWELL_RADIUS)%js = false /\
   d_triggered d = false /\ 600 <= t - t0) /\
  (snd out = true -> snd (fst out) = Fin 0 /\ d_triggered (fst (fst out)) = true).
Proof.
  intros Hs Ht out. subst out. unfold dwellStep. rewrite Hs.
  destruct (dwellDist (d_anchor d) cx cy >? DWELL_RADIUS)%js.
  - cbn [fst snd]. split; [exists 0; split; [reflexivity | lra] |].
    split; [split; [discriminate | intros [H _]; discriminate] | discriminate].
  - destruct (d_triggered d); cbn [negb].
    + cbn [fst snd]. split; [exists 0; split; [reflexivity | lra] |].
      split; [split; [discriminate | intros [_ [H _]]; discriminate] | discriminate].
    + replace (Fin t - Fin t0 >=? DWELL_DURATION)%js with (JS.Rleb 600 (t - t0))
        by reflexivity.
      unfold JS.Rleb. destruct (Rle_dec 600 (t - t0)); cbn [fst snd d_triggered].
      * split; [exists 0; split; [reflexivity | lra] |].
        split; [split; auto | auto].
      * split.
        { exists ((t - t0) / 600). split; [js_eval |].
          split; [apply Rmult_le_pos; lra |].
          apply Rmult_lt_reg_r with 600; [lra |].
          unfold Rdiv. rewrite Rmult_assoc, Rinv_l by lra. lra. }
        split; [split; [discriminate | intros [_ [_ H]]; lra] | discriminate].
Qed.

Lemma dwell_progress_range_witness :
  exists r, snd (fst (dwellStep heldDwell (Fin 0.5) (Fin 0.5) (Fin 300))) = Fin r
            /\ 0 <= r < 1.
Proof.
  assert (H0 : (0 <= 300)%R) by lra.
  exact (proj1 (dwell_progress_range heldDwell (Fin 0.5) (Fin 0.5) 0 300 eq_refl H0)).
Defined.

End DwellFurther.

Section EyeAspectRatio.

Lemma dist_Fin (a b c d : R) :
  dist (mkPoint (Fin a) (Fin b)) (mkPoint (Fin c) (Fin d))
  = Fin (euclid (a - c) (b - d)).
Proof.
  cbv [dist x y JS.pow2 JS.sub JS.add JS.neg JS.mul JS.sqrt JS.Rltb euclid].
  pose proof (sumsq_nonneg (a + - c) (b + - d)).
  destruct (Rlt_dec _ 0); [lra |].
  do 2 f_equal.
Qed.

Lemma euclid_nonneg (a b : R) : 0 <= euclid a b.
Proof. unfold euclid. apply sqrt_pos. Qed.

Lemma euclid_scale (k a b : R) : euclid (k * a) (k * b) = Rabs k * euclid a b.
Proof.
  unfold euclid.
  replace (k * a * (k * a) + k * b * (k * b)) with (Rsqr k * (a * a + b * b))
    by (unfold Rsqr; ring).
  rewrite sqrt_mult_alt by apply Rle_0_sqr.
  rewrite sqrt_Rsqr_abs. reflexivity.
Qed.

Lemma dist_similar (k tx ty : R) (l : nat -> R * R) (i j : nat) :
  dist (finiteLandmarks (similarFace k tx ty l) i)
       (finiteLandmarks (similarFace k tx ty l) j)
  = Fin (Rabs k * euclid (fst (l i) - fst (l j)) (snd (l i) - snd (l j))).
Proof.
  unfold finiteLandmarks, similarFace. cbn [fst snd]. rewrite dist_Fin.
  rewrite <- euclid_scale. do 2 f_equal; ring.
Qed.

Lemma dist_finite (l : nat -> R * R) (i j : nat) :
  dist (finiteLandmarks l i) (finiteLandmarks l j)
  = Fin (euclid (fst (l i) - fst (l j)) (snd (l i) - snd (l j))).
Proof. unfold finiteLandmarks. apply dist_Fin. Qed.

(** The ratio of finite lengths is unchanged when both are scaled by a
    positive factor, also when the denominator is zero. *)
Lemma ratio_scale (c v h : R) :
  0 < c -> 0 <= v ->
  (Fin (c * v) / (Fin 2 * Fin (c * h)))%js = (Fin v / (Fin 2 * Fin h))%js.
Proof.
  intros Hc Hv. cbv [JS.mul JS.div JS.Reqb JS.signedInf JS.Rltb Bool.eqb].
  destruct (Req_dec_T (2 * h) 0) as [Hh | Hh].
  - assert (h = 0) by lra. subst h.
    destruct (Req_dec_T (2 * (c * 0)) 0); [| lra].
    destruct (Req_dec_T v 0) as [-> | Hv0].
    + destruct (Req_dec_T (c * 0) 0); [reflexivity | lra].
    + destruct (Req_dec_T (c * v) 0); [nra |].
      destruct (Rlt_dec 0 (c * v)), (Rlt_dec 0 v); try reflexivity; nra.
  - destruct (Req_dec_T (2 * (c * h)) 0); [nra |].
    f_equal. field. split; lra.
Qed.

(** X13.  The eye aspect ratio does not depend on where the face is in the
    image nor on its size: moving every landmark by the same offset and
    scaling by the same non-zero factor leaves it unchanged, for any six
    indices, degenerate eyes included. *)
Theorem calculateEAR_similar (k tx ty : R) (l : nat -> R * R) (indices : list nat) :
  k <> 0 ->
  calculateEAR (finiteLandmarks (similarFace k tx ty l)) indices
  = calculateEAR (finiteLandmarks l) indices.
Proof.
  intros Hk. unfold calculateEAR.
  rewrite !dist_similar, !dist_finite.
  cbv [JS.add].
  rewrite <- Rmult_plus_distr_l.
  apply ratio_scale.
  - apply Rabs_pos_lt. assumption.
  - apply Rplus_le_le_0_compat; apply euclid_nonneg.
Qed.

Lemma calculateEAR_similar_witness :
  calculateEAR (finiteLandmarks (similarFace 2 0.1 0.1 (fun i => (INR i, 0)))) LEFT_EYE
  = calculateEAR (finiteLandmarks (fun i => (INR i, 0))) LEFT_EYE.
Proof.
  apply calculateEAR_similar. lra.
Defined.

End EyeAspectRatio.

(* ================================================================== *)
(** ** Further properties: hit testing and the gesture layer *)
(* ================================================================== *)


Section HitBoxes.




End HitBoxes.

Section GestureFurther.

Lemma processVisionResult_effects (s : App) (now : Z) (ev : VisionEvent) :
  let r := processVisionResult s now ev in
  let hit := hitTest (statusRef s) (activeAppRef s) (ev_cursor ev) in
  hoveredAppId (fst r) = hit /\
  activeAppRef (fst r) = activeAppRef s /\
  ((snd r = [] /\ activeApp (fst r) = activeApp s) \/
   (exists h, snd r = [SetActiveApp (Some h); LoadAppContent h] /\
              activeApp (fst r) = Some h /\ hit = Some h /\
              activeAppRef s = None /\ ev_didDwell ev = true /\
              statusRef s <> CALIBRATING)).
Proof.
  intros r hit. subst r. unfold processVisionResult. fold hit.
  unfold dwellGesture. cbn [statusRef activeAppRef].
  destruct (ev_didDwell ev) eqn:Ed; cbn [andb].
  - destruct (AppStatus_eqb (statusRef s) CALIBRATING) eqn:Ec; cbn [negb].
    + unfold blinkGesture. cbn [fst snd statusRef]. rewrite Ec, andb_false_r.
      cbn. auto.
    + assert (Hn : statusRef s <> CALIBRATING)
        by (intros E; rewrite E in Ec; discriminate Ec).
      destruct (activeAppRef s) eqn:Ea; [| destruct hit as [h |] eqn:Eh];
        cbn [fst snd]; unfold blinkGesture;
        destruct (ev_didBlink ev && _); cbn; repeat split; auto;
        right; exists h; repeat split; auto.
  - unfold blinkGesture. cbn [fst snd].
    destruct (ev_didBlink ev && _); cbn; auto.
Qed.

(** X15.  Whatever the event, the component asks for one of three things:
    nothing; closing the app, only from the timeout and only when the
    callback sees an app active; or opening an app together with loading
    its content, only when the callback sees no app active - and a frame
    that opens an app opens the icon under its cursor, on a dwell. *)
Theorem step_effects (s : App) (e : Event) :
  snd (step s e) = [] \/
  (snd (step s e) = [SetActiveApp None] /\ activeApp (fst (step s e)) = None /\
   activeAppRef s <> None /\ exists now, e = TimerFired now) \/
  (exists h, snd (step s e) = [SetActiveApp (Some h); LoadAppContent h] /\
             activeApp (fst (step s e)) = Some h /\ activeAppRef s = None /\
             (forall now ev, e = VisionResult now ev ->
                             hitTest (statusRef s) (activeAppRef s) (ev_cursor ev) = Some h
                             /\ ev_didDwell ev = true)).
Proof.
  destruct e as [now ev | now |]; cbn [step].
  - destruct (processVisionResult_effects s now ev) as [_ [_ [[H _] | [h H]]]].
    + left. exact H.
    + right. right. exists h. destruct H as [H1 [H2 [H3 [H4 [H5 _]]]]].
      split; [exact H1 |]. split; [exact H2 |]. split; [exact H4 |].
      intros now0 ev0 E. injection E as <- <-. auto.
  - destruct (doubleBlinkTimer s) as [deadline |]; [| left; reflexivity].
    destruct (deadline <=? now)%Z; [| left; reflexivity].
    destruct (doubleBlinkTimeout_cases s) as [_ [_ [_ He]]].
    destruct (blinkCount s) as [| [| [| n]]];
      destruct (activeAppRef s) eqn:Ea; destruct (firstBlinkHitRef s) eqn:Ef;
      injection He as He1 He2; rewrite He1, He2;
      try (left; reflexivity);
      try (right; left; repeat split; eauto; discriminate).
    right. right. eexists.
    split; [reflexivity |]. split; [reflexivity |]. split; [reflexivity |].
    intros now0 ev0 E. discriminate E.
  - left. reflexivity.
Qed.

End GestureFurther.

Section DebounceWindow.

Lemma step_windowOpen (s : App) (e : Event) :
  windowOpen s -> windowOpen (fst (step s e)).
Proof.
  unfold windowOpen. intros Hw. destruct e as [now ev | now |]; cbn [step].
  - destruct (processVisionResult_blink s now ev) as [_ H].
    destruct (ev_didBlink ev && _).
    + destruct H as [-> [-> _]]. split; intros; discriminate.
    + destruct H as [-> [-> _]]. exact Hw.
  - destruct (doubleBlinkTimer s) as [deadline |] eqn:Et;
      [| cbn [fst]; rewrite Et; exact Hw].
    destruct (deadline <=? now)%Z; [| cbn [fst]; rewrite Et; exact Hw].
    destruct (doubleBlinkTimeout_cases s) as [-> [-> _]]. tauto.
  - cbn. exact Hw.
Qed.

Lemma run_windowOpen (es : list Event) (s : App) :
  windowOpen s -> windowOpen (fst (run s es)).
Proof.
  revert s. induction es as [| e es IH]; intros s Hw; cbn [run]; [exact Hw |].
  pose proof (step_windowOpen s e Hw) as H1.
  destruct (step s e) as [s1 effs1]. cbn [fst] in H1.
  specialize (IH s1 H1). destruct (run s1 es) as [s2 effs2]. exact IH.
Qed.

(** X16.  Whatever happens to the component after it is mounted - frames,
    renders, timeouts due or not - a timeout is pending exactly when the
    blink count is not zero: no count survives its window, and no window
    is open without a blink. *)
Theorem window_matches_count (es : list Event) :
  windowOpen (fst (run initialApp es)).
Proof.
  apply run_windowOpen. unfold windowOpen. cbn. tauto.
Qed.

(** X17.  Each blink restarts the window: after a frame that counts a blink
    at time [now], a timeout firing before [now + 600] does nothing,
    whatever deadline was pending before, and one firing at or after
    [now + 600] ends the sequence. *)
Theorem window_restarts (s : App) (now t : Z) (ev : VisionEvent) :
  ev_didBlink ev = true -> statusRef s <> CALIBRATING ->
  let s' := fst (processVisionResult s now ev) in
  ((t < now + 600)%Z -> step s' (TimerFired t) = (s', [])) /\
  ((now + 600 <= t)%Z -> step s' (TimerFired t) = doubleBlinkTimeout s').
Proof.
  intros Hb Hs s'.
  assert (Ht : doubleBlinkTimer s' = Some (now + 600)%Z).
  { subst s'. destruct (processVisionResult_blink s now ev) as [_ H].
    rewrite Hb in H.
    destruct (AppStatus_eqb (statusRef s) CALIBRATING) eqn:E;
      [apply AppStatus_eqb_eq in E; contradiction |].
    cbn [andb negb] in H. apply H. }
  cbn [step]. rewrite Ht. split; intros H.
  - replace (now + 600 <=? t)%Z with false by (symmetry; apply Z.leb_gt; lia).
    reflexivity.
  - replace (now + 600 <=? t)%Z with true by (symmetry; apply Z.leb_le; lia).
    reflexivity.
Qed.

Lemma window_restarts_witness :
  step (fst (processVisionResult (appIn ACTIVE 1 (Some mail) None (Some 650%Z))
                                 300 blinkOnMail))
       (TimerFired 650)
  = (fst (processVisionResult (appIn ACTIVE 1 (Some mail) None (Some 650%Z))
                              300 blinkOnMail), []).
Proof.
  assert (H1 : ev_didBlink blinkOnMail = true) by reflexivity.
  assert (H2 : statusRef (appIn ACTIVE 1 (Some mail) None (Some 650%Z)) <> CALIBRATING)
    by discriminate.
  apply (proj1 (window_restarts _ 300%Z 650%Z blinkOnMail H1 H2)). lia.
Defined.

End DebounceWindow.

Section BlinkSequences.

Lemma run_app (a b : list Event) (s : App) :
  run s (a ++ b)
  = (fst (run (fst (run s a)) b), snd (run s a) ++ snd (run (fst (run s a)) b)).
Proof.
  revert s. induction a as [| e a IH]; intros s; cbn [app run].
  - cbn [fst snd app]. destruct (run s b); reflexivity.
  - destruct (step s e) as [s1 effs1]. rewrite IH.
    destruct (run s1 a) as [s2 effs2]. cbn [fst snd].
    destruct (run s2 b) as [s3 effs3]. cbn [fst snd].
    rewrite app_assoc. reflexivity.
Qed.

Lemma frames_counted (l : list (Z * VisionEvent)) (s : App) :
  statusRef s <> CALIBRATING ->
  statusRef (fst (run s (frameEvents l))) = statusRef s /\
  blinkCount (fst (run s (frameEvents l))) = (blinkCount s + blinksIn l)%nat.
Proof.
  revert s. induction l as [| [now ev] l IH]; intros s Hs.
  - cbn. split; [reflexivity | lia].
  - cbn [frameEvents map run step fst snd]. fold (frameEvents l).
    destruct (processVisionResult_blink s now ev) as [Hst H].
    destruct (processVisionResult s now ev) as [s1 effs1]. cbn [fst] in *.
    assert (Hs1 : statusRef s1 <> CALIBRATING) by congruence.
    destruct (IH s1 Hs1) as [IH1 IH2].
    destruct (run s1 (frameEvents l)) as [s2 effs2]. cbn [fst] in *.
    split; [congruence |]. rewrite IH2.
    unfold blinksIn. cbn [filter snd].
    destruct (AppStatus_eqb (statusRef s) CALIBRATING) eqn:E;
      [apply AppStatus_eqb_eq in E; contradiction |].
    destruct (ev_didBlink ev); cbn [andb negb length] in *;
      destruct H as [-> _]; lia.
Qed.

(** X18.  Outside calibration the blink count after a run of frames is the
    count before plus the number of frames that reported a blink: no blink
    is lost or counted twice, whatever the cursor, the dwell events and the
    apps. *)
Theorem blinks_counted (s : App) (l : list (Z * VisionEvent)) :
  statusRef s <> CALIBRATING ->
  blinkCount (fst (run s (frameEvents l))) = (blinkCount s + blinksIn l)%nat.
Proof. intros Hs. apply (frames_counted l s Hs). Qed.

Lemma blinks_counted_witness :
  blinkCount (fst (run (appIn ACTIVE 0 None None None)
                       (frameEvents [(0%Z, blinkOnMail); (100%Z, moveToWeather);
                                     (200%Z, blinkOnMail)])))
  = (0 + 2)%nat.
Proof.
  apply (blinks_counted (appIn ACTIVE 0 None None None)
                        [(0%Z, blinkOnMail); (100%Z, moveToWeather); (200%Z, blinkOnMail)]).
  discriminate.
Defined.

(** With an app active for the callback, frames ask for nothing and leave
    the refs alone; a pending deadline stays before [t] when every frame
    came 600 ms or more before [t]. *)
Lemma frames_with_app (l : list (Z * VisionEvent)) (s : App) (a : AppId) (t : Z) :
  activeAppRef s = Some a ->
  Forall (fun p => (fst p + 600 <= t)%Z) l ->
  (forall d, doubleBlinkTimer s = Some d -> (d <= t)%Z) ->
  let r := run s (frameEvents l) in
  snd r = [] /\ activeAppRef (fst r) = Some a /\
  (forall d, doubleBlinkTimer (fst r) = Some d -> (d <= t)%Z).
Proof.
  intros Ha Hl. revert s Ha. induction Hl as [| [now ev] l Hp _ IH]; intros s Ha Hd.
  - cbn. auto.
  - cbn [frameEvents map run step fst snd]. fold (frameEvents l).
    destruct (processVisionResult_effects s now ev) as [_ [Href He]].
    destruct (processVisionResult_blink s now ev) as [_ Hb].
    destruct (processVisionResult s now ev) as [s1 effs1]. cbn [fst snd] in *.
    assert (He1 : effs1 = []).
    { destruct He as [[H _] | [h [_ [_ [_ [H _]]]]]]; [exact H | congruence]. }
    assert (Hd1 : forall d, doubleBlinkTimer s1 = Some d -> (d <= t)%Z).
    { intros d Hd1. destruct (ev_didBlink ev && _).
      - destruct Hb as [_ [Ht _]]. rewrite Ht in Hd1. injection Hd1 as <-.
        unfold DOUBLE_BLINK_WINDOW. exact Hp.
      - destruct Hb as [_ [Ht _]]. rewrite Ht in Hd1. auto. }
    rewrite Ha in Href.
    specialize (IH s1 Href Hd1). cbn zeta in IH.
    destruct (run s1 (frameEvents l)) as [s2 effs2]. cbn [fst snd] in *.
    destruct IH as [-> [IH2 IH3]]. subst effs1. auto.
Qed.

(** X19.  With an app active and no sequence running, a sequence of frames
    followed by the timeout, fired 600 ms or more after the last of them,
    closes the app exactly when the frames reported two blinks; one blink,
    three or more, or none ask for nothing.  The count is back to zero and
    no timeout is pending afterwards. *)
Theorem blink_sequence_with_app (s : App) (a : AppId)
    (l : list (Z * VisionEvent)) (t : Z) :
  blinkCount s = 0%nat -> doubleBlinkTimer s = None ->
  statusRef s <> CALIBRATING -> activeAppRef s = Some a ->
  Forall (fun p => (fst p + 600 <= t)%Z) l ->
  let r := run s (frameEvents l ++ [TimerFired t]) in
  snd r = (if Nat.eqb (blinksIn l) 2 then [SetActiveApp None] else []) /\
  blinkCount (fst r) = 0%nat /\ doubleBlinkTimer (fst r) = None.
Proof.
  intros Hc Ht Hs Ha Hl r. subst r. rewrite run_app.
  assert (Hd : forall d, doubleBlinkTimer s = Some d -> (d <= t)%Z)
    by (intros d H; congruence).
  destruct (frames_with_app l s a t Ha Hl Hd) as [He [Ha2 Hd2]].
  destruct (frames_counted l s Hs) as [_ Hn]. rewrite Hc in Hn. cbn [Nat.add] in Hn.
  assert (Hw : windowOpen (fst (run s (frameEvents l)))).
  { apply run_windowOpen. unfold windowOpen. rewrite Hc, Ht. tauto. }
  set (s2 := fst (run s (frameEvents l))) in *.
  rewrite He. cbn [app fst snd run step].
  destruct (doubleBlinkTimer s2) as [d |] eqn:Et.
  - replace (d <=? t)%Z with true by (symmetry; apply Z.leb_le; auto).
    destruct (doubleBlinkTimeout_cases s2) as [H0 [H1 [_ H2]]].
    destruct (doubleBlinkTimeout s2) as [s3 effs3]. cbn [fst snd] in *.
    rewrite app_nil_r. rewrite Hn, Ha2 in H2.
    split; [| auto].
    destruct (blinksIn l) as [| [| [| n]]]; injection H2 as -> _; reflexivity.
  - cbn [fst snd app]. unfold windowOpen in Hw.
    assert (H0 : blinkCount s2 = 0%nat) by (apply Hw; exact Et).
    rewrite <- Hn, H0. cbn. auto.
Qed.

Lemma blink_sequence_with_app_witness :
  snd (run (appIn ACTIVE 0 None (Some mail) None)
           (frameEvents [(0%Z, blinkOnMail); (200%Z, blinkOnMail)] ++ [TimerFired 800]))
  = (if Nat.eqb (blinksIn [(0%Z, blinkOnMail); (200%Z, blinkOnMail)]) 2
     then [SetActiveApp None] else []).
Proof.
  apply (blink_sequence_with_app (appIn ACTIVE 0 None (Some mail) None) mail
                                 [(0%Z, blinkOnMail); (200%Z, blinkOnMail)] 800%Z);
    try reflexivity; try discriminate.
  repeat constructor; cbn; lia.
Defined.

End BlinkSequences.

(* ================================================================== *)
(** ** Further properties: non-finite numbers in the frame loop *)
(* ================================================================== *)

Section NotANumber.

(** One [NaN] among the cursor and the target makes both coordinates of the
    new cursor [NaN]: it enters the distance, hence the smoothing factor. *)
Lemma smoothCursor_NaN_any (cx cy tx ty : number) :
  JS.isNaN cx || JS.isNaN cy || JS.isNaN tx || JS.isNaN ty = true ->
  smoothCursor cx cy tx ty = (NaN, NaN).
Proof.
  destruct cx, cy, tx, ty; cbn [JS.isNaN orb]; intros H;
    try discriminate H; reflexivity.
Qed.

Lemma predictWebcam_NaN (vs : VisionService) (fr : Frame) :
  JS.isNaN (cursorX vs) || JS.isNaN (cursorY vs) = true ->
  JS.isNaN (cursorX (fst (predictWebcam vs fr)))
  || JS.isNaN (cursorY (fst (predictWebcam vs fr))) = true /\
  (forall e, snd (predictWebcam vs fr) = Some e -> ev_cursor e = mkPoint NaN NaN).
Proof.
  intros HN. unfold predictWebcam.
  destruct (faceLandmarks fr) as [lm |]; [| cbn; split; [exact HN | discriminate]].
  destruct (mapToScreen _ _ _) as [tx ty].
  rewrite smoothCursor_NaN_any by (rewrite HN; reflexivity).
  destruct (blinkStep _ _ _) as [bst didBlink].
  destruct (dwellStep _ _ _ _) as [[d progress] didDwell].
  cbn. split; [reflexivity |]. intros e He. injection He as <-. reflexivity.
Qed.

Lemma runFrames_NaN (frames : list Frame) (vs : VisionService) :
  JS.isNaN (cursorX vs) || JS.isNaN (cursorY vs) = true ->
  JS.isNaN (cursorX (fst (runFrames vs frames)))
  || JS.isNaN (cursorY (fst (runFrames vs frames))) = true /\
  Forall (fun e => ev_cursor e = mkPoint NaN NaN) (snd (runFrames vs frames)).
Proof.
  revert vs. induction frames as [| fr frames IH]; intros vs HN; cbn [runFrames].
  - cbn. auto.
  - destruct (predictWebcam_NaN vs fr HN) as [H1 H2].
    destruct (predictWebcam vs fr) as [vs1 ev]. cbn [fst snd] in *.
    destruct (IH vs1 H1) as [IH1 IH2].
    destruct (runFrames vs1 frames) as [vs2 evs]. cbn [fst snd] in *.
    split; [exact IH1 |].
    destruct ev as [e |]; [constructor; auto | exact IH2].
Qed.

(** X20.  A cursor with a [NaN] coordinate does not recover: storing a new
    profile does not touch the cursor, every later frame keeps a [NaN]
    coordinate, and every event emitted carries the cursor (NaN, NaN). *)
Theorem cursor_NaN_unrecoverable (vs : VisionService) (config : CalibrationConfig)
    (frames : list Frame) :
  JS.isNaN (cursorX vs) || JS.isNaN (cursorY vs) = true ->
  let r := runFrames (setCalibration vs config) frames in
  JS.isNaN (cursorX (fst r)) || JS.isNaN (cursorY (fst r)) = true /\
  Forall (fun e => ev_cursor e = mkPoint NaN NaN) (snd r).
Proof.
  intros HN r. apply runFrames_NaN. exact HN.
Qed.

Lemma cursor_NaN_unrecoverable_witness :
  Forall (fun e => ev_cursor e = mkPoint NaN NaN)
         (snd (runFrames (setCalibration
                            (mkVisionService NaN (Fin 0.5) (Fin (-1))
                                             (mkPoint (Fin 0.5) (Fin 0.5)) (Fin 0) false
                                             (Some stillProfile))
                            (mkCalibration (mkAxis (Fin 0.3) (Fin 0.7))
                                           (mkAxis (Fin 0.3) (Fin 0.7))))
                         [stillFrame])).
Proof.
  apply cursor_NaN_unrecoverable. reflexivity.
Defined.

End NotANumber.

Section DegenerateEye.

Lemma predictWebcam_ear (vs : VisionService) (fr : Frame) (lm : nat -> Point) :
  faceLandmarks fr = Some lm ->
  exists e,
    snd (predictWebcam vs fr) = Some e /\
    ev_ear e = ((calculateEAR lm LEFT_EYE + calculateEAR lm RIGHT_EYE) / Fin 2)%js /\
    ev_isBlinking e = (ev_ear e <? BLINK_THRESHOLD)%js.
Proof.
  intros Hlm. unfold predictWebcam. rewrite Hlm.
  destruct (mapToScreen _ _ _) as [tx ty].
  destruct (smoothCursor _ _ tx ty) as [cx cy].
  destruct (blinkStep _ _ _) as [bst didBlink].
  destruct (dwellStep _ _ _ _) as [[d progress] didDwell].
  eexists. split; [reflexivity |]. cbn. auto.
Qed.

(** The ratio of an eye with finite landmarks: a non-negative number, or
    [Infinity] or [NaN] when the corners of the eye coincide. *)
Lemma calculateEAR_shape (l : nat -> R * R) (indices : list nat) :
  let c0 := l (nth 0 indices O) in
  let c3 := l (nth 3 indices O) in
  (exists r, 0 <= r /\ calculateEAR (finiteLandmarks l) indices = Fin r /\ c0 <> c3)
  \/ ((calculateEAR (finiteLandmarks l) indices = PInf
       \/ calculateEAR (finiteLandmarks l) indices = NaN)).
Proof.
  intros c0 c3. unfold calculateEAR. rewrite !dist_finite. fold c0 c3.
  cbv [JS.add JS.mul].
  match goal with
  | |- context [JS.div (Fin ?vv) (Fin (2 * ?hh))] => set (v := vv); set (h := hh)
  end.
  assert (Hv : 0 <= v)
    by (subst v; apply Rplus_le_le_0_compat; apply euclid_nonneg).
  assert (Hh : 0 <= h) by (subst h; apply euclid_nonneg).
  cbv [JS.div JS.Reqb JS.signedInf JS.Rltb Bool.eqb].
  destruct (Req_dec_T (2 * h) 0) as [E | E].
  - right. destruct (Req_dec_T v 0); [right; reflexivity |].
    destruct (Rlt_dec 0 v); [left; reflexivity | lra].
  - left. exists (v / (2 * h)). split; [| split; [reflexivity |]].
    + apply Rmult_le_pos; [lra |]. apply Rlt_le, Rinv_0_lt_compat. lra.
    + intros Ec. apply E. subst h. rewrite Ec.
      unfold euclid. replace (_ * _ + _ * _) with 0 by ring. rewrite sqrt_0. lra.
Qed.

Lemma calculateEAR_degenerate (l : nat -> R * R) (indices : list nat) :
  l (nth 0 indices O) = l (nth 3 indices O) ->
  calculateEAR (finiteLandmarks l) indices = PInf
  \/ calculateEAR (finiteLandmarks l) indices = NaN.
Proof.
  intros E. destruct (calculateEAR_shape l indices) as [[r [_ [_ H]]] | H];
    [contradiction | exact H].
Qed.

Lemma average_not_closed (a b : number) :
  (a = PInf \/ a = NaN) ->
  (exists r, b = Fin r) \/ b = PInf \/ b = NaN ->
  (((a + b) / Fin 2 <? BLINK_THRESHOLD)%js = false
   /\ (((a + b) / Fin 2)%js = PInf \/ ((a + b) / Fin 2)%js = NaN))
  /\ (((b + a) / Fin 2 <? BLINK_THRESHOLD)%js = false
      /\ (((b + a) / Fin 2)%js = PInf \/ ((b + a) / Fin 2)%js = NaN)).
Proof.
  intros [-> | ->] [[r ->] | [-> | ->]];
    cbv [JS.add JS.div JS.ltb JS.Rltb BLINK_THRESHOLD];
    try (destruct (Rlt_dec 2 0); [lra |]); auto.
Qed.

(** X21.  A frame with finite landmarks in which the two corners of an eye
    coincide never counts as eyes closed: the division by the zero eye
    width makes the averaged ratio [Infinity] or [NaN], and the comparison
    with the threshold fails. *)
Theorem degenerate_eye_not_closed (vs : VisionService) (fr : Frame)
    (l : nat -> R * R) :
  faceLandmarks fr = Some (finiteLandmarks l) ->
  l 33%nat = l 133%nat \/ l 362%nat = l 263%nat ->
  exists e, snd (predictWebcam vs fr) = Some e /\
            ev_isBlinking e = false /\ (ev_ear e = PInf \/ ev_ear e = NaN).
Proof.
  intros Hlm Hd.
  destruct (predictWebcam_ear vs fr _ Hlm) as [e [He [Hear Hb]]].
  exists e. split; [exact He |]. rewrite Hb, Hear.
  assert (Hs : forall idx, (exists r, calculateEAR (finiteLandmarks l) idx = Fin r)
                           \/ calculateEAR (finiteLandmarks l) idx = PInf
                           \/ calculateEAR (finiteLandmarks l) idx = NaN).
  { intros idx. destruct (calculateEAR_shape l idx) as [[r [_ [H _]]] | H]; eauto. }
  destruct Hd as [Hd | Hd].
  - apply (average_not_closed _ _ (calculateEAR_degenerate l LEFT_EYE Hd) (Hs RIGHT_EYE)).
  - apply (average_not_closed _ _ (calculateEAR_degenerate l RIGHT_EYE Hd) (Hs LEFT_EYE)).
Qed.

Lemma degenerate_eye_not_closed_witness :
  exists e, snd (predictWebcam (newVisionService None)
                               (mkFrame (Some (finiteLandmarks (fun _ => (0.5, 0.5))))
                                        (Fin 0) (Fin 0))) = Some e /\
            ev_isBlinking e = false /\ (ev_ear e = PInf \/ ev_ear e = NaN).
Proof.
  apply (degenerate_eye_not_closed _ _ (fun _ => (0.5, 0.5))); [reflexivity |].
  left. reflexivity.
Defined.

End DegenerateEye.
